(** * Square refund processor: a shallow embedding of
    [square_refund_processor.py] and the properties of its loader
    ([read_csv_file]), its call wrapper ([create_refund]), its runner
    ([process_refunds]) and its entry point ([main]). *)

From Stdlib Require Import ZArith QArith Qround String Ascii List Bool Lia SpecFloat
  Sorted.
From stdpp Require Import base option list gmap strings.

Local Open Scope Z_scope.
Local Open Scope string_scope.

(** ** Python exceptions

    The classes the program can meet.  All of them derive from Python's
    [Exception]; [KeyboardInterrupt] does not (it derives from
    [BaseException]) and is kept apart, see [raised]. [str(e)] is the
    message. *)

Inductive py_exception :=
| APIException (message : string)
| ValueError (message : string)
| OverflowError (message : string)
| AttributeError (message : string)
| TypeError (message : string)
| KeyError (key : string)
| ZeroDivisionError (message : string)
| FileNotFoundError (message : string)
| OtherError (class_name message : string).

(** [str(e)] *)
Definition exn_str (e : py_exception) : string :=
  match e with
  | APIException m | ValueError m | OverflowError m | AttributeError m
  | TypeError m | ZeroDivisionError m | FileNotFoundError m
  | OtherError _ m => m
  | KeyError k => "'" ++ k ++ "'"
  end.

(** [isinstance(e, APIException)] *)
Definition is_APIException (e : py_exception) : bool :=
  match e with APIException _ => true | _ => false end.

(** What a [raise] can carry up the stack. *)
Inductive raised :=
| Exc (e : py_exception)
| KeyboardInterrupt.

(** ** Python strings: [str.strip()]

    A character is a code point below 256.  [str.isspace] holds there of
    U+0009..U+000D, U+001C..U+0020, U+0085 and U+00A0. *)

Definition is_space (c : ascii) : bool :=
  let n := N_of_ascii c in
  (((9 <=? n) && (n <=? 13)) || ((28 <=? n) && (n <=? 32))
   || (n =? 133) || (n =? 160))%N.

Fixpoint lstrip_chars (l : list ascii) : list ascii :=
  match l with
  | c :: l' => if is_space c then lstrip_chars l' else l
  | [] => []
  end.

Definition strip_chars (l : list ascii) : list ascii :=
  rev (lstrip_chars (rev (lstrip_chars l))).

Definition strip (s : string) : string :=
  string_of_list_ascii (strip_chars (list_ascii_of_string s)).

(** ** Python floats: IEEE 754 binary64 *)

Module PyFloat.

Definition float := spec_float.
Definition prec : Z := 53.
Definition emax : Z := 1024.

Definition zero : float := S754_zero false.

(** [float(n)] for an integer [n] *)
Definition of_Z (n : Z) : float := binary_normalize prec emax n 0 false.

(** [x * y], round to nearest even *)
Definition mul (x y : float) : float := SFmul prec emax x y.

Definition leb (x y : float) : bool := SFleb x y.
Definition ltb (x y : float) : bool := SFltb x y.

Definition is_finite (x : float) : bool :=
  match x with
  | S754_zero _ | S754_finite _ _ _ => true
  | _ => false
  end.

(** The rational a finite float stands for (0 for the others). *)
Definition to_Q (x : float) : Q :=
  match x with
  | S754_finite s m e =>
      let v := match e with
               | Zneg p => Qmake (Zpos m) (2 ^ p)%positive
               | _ => inject_Z (Zpos m * 2 ^ e)
               end in
      if s then Qopp v else v
  | _ => 0%Q
  end.

(** [int(x)]: truncation toward zero; NaN and the infinities raise. *)
Definition to_int (x : float) : py_exception + Z :=
  match x with
  | S754_nan => inl (ValueError "cannot convert float NaN to integer")
  | S754_infinity _ =>
      inl (OverflowError "cannot convert float infinity to integer")
  | S754_zero _ => inr 0
  | S754_finite s m e =>
      let a := match e with
               | Zneg p => Zpos m / 2 ^ Zpos p
               | _ => Zpos m * 2 ^ e
               end in
      inr (if s then - a else a)
  end.

(** *** [float(s)] for a string

    The grammar of the language reference:
    [floatvalue ::= [sign] (floatnumber | "inf" | "infinity" | "nan")],
    letters in any case, white space stripped at both ends,
    [floatnumber ::= number [exponent]],
    [number ::= [digitpart] "." digitpart | digitpart ["."]],
    [digitpart ::= digit (["_"] digit)*],
    [exponent ::= ("e" | "E") [sign] digitpart].
    The value is the decimal rounded to the nearest binary64, ties to
    even. *)

Definition digit_val (c : ascii) : option Z :=
  let n := N_of_ascii c in
  if ((48 <=? n) && (n <=? 57))%N then Some (Z.of_N n - 48) else None.

Definition lower (c : ascii) : ascii :=
  let n := N_of_ascii c in
  if ((65 <=? n) && (n <=? 90))%N then ascii_of_N (n + 32) else c.

(** the rest of a digitpart: [(["_"] digit)*]; [acc] is the number read
    so far and [cnt] how many digits it has *)
Fixpoint digits_tail (acc cnt : Z) (l : list ascii) : Z * Z * list ascii :=
  match l with
  | c :: l' =>
      match digit_val c with
      | Some d => digits_tail (10 * acc + d) (cnt + 1) l'
      | None =>
          if Ascii.eqb c "_" then
            match l' with
            | c2 :: l'' =>
                match digit_val c2 with
                | Some d => digits_tail (10 * acc + d) (cnt + 1) l''
                | None => (acc, cnt, l)
                end
            | [] => (acc, cnt, l)
            end
          else (acc, cnt, l)
      end
  | [] => (acc, cnt, l)
  end.

Definition digitpart (acc cnt : Z) (l : list ascii)
  : option (Z * Z * list ascii) :=
  match l with
  | c :: l' =>
      match digit_val c with
      | Some d => Some (digits_tail (10 * acc + d) (cnt + 1) l')
      | None => None
      end
  | [] => None
  end.

Definition sign_of (l : list ascii) : bool * list ascii :=
  match l with
  | c :: l' =>
      if Ascii.eqb c "-" then (true, l')
      else if Ascii.eqb c "+" then (false, l')
      else (false, l)
  | [] => (false, l)
  end.

(** [number]: the digits read as one integer, and how many of them
    stand after the point *)
Definition number (l : list ascii) : option (Z * Z * list ascii) :=
  let '(m, have_int, l1) :=
    match digitpart 0 0 l with
    | Some (m, _, l1) => (m, true, l1)
    | None => (0, false, l)
    end in
  match l1 with
  | c :: l2 =>
      if Ascii.eqb c "." then
        match digitpart m 0 l2 with
        | Some (m', k, l3) => Some (m', k, l3)
        | None => if have_int then Some (m, 0, l2) else None
        end
      else if have_int then Some (m, 0, l1) else None
  | [] => if have_int then Some (m, 0, l1) else None
  end.

Definition exponent (l : list ascii) : option (Z * list ascii) :=
  match l with
  | c :: l1 =>
      if Ascii.eqb (lower c) "e" then
        let '(s, l2) := sign_of l1 in
        match digitpart 0 0 l2 with
        | Some (x, _, l3) => Some (if s then - x else x, l3)
        | None => None
        end
      else None
  | [] => Some (0, [])
  end.

(** [m * 10 ^ scale], correctly rounded *)
Definition of_decimal (s : bool) (m scale : Z) : float :=
  match m with
  | Zpos p =>
      match scale with
      | Zneg k =>
          let '(q, e, loc) :=
            SFdiv_core_binary prec emax (Zpos p) 0 (10 ^ Zpos k) 0 in
          binary_round_aux prec emax s q e loc
      | _ => binary_normalize prec emax
               (if s then - (Zpos p * 10 ^ scale) else Zpos p * 10 ^ scale)
               0 s
      end
  | _ => S754_zero s
  end.

Definition of_chars (l : list ascii) : option float :=
  let '(s, l1) := sign_of (strip_chars l) in
  let word := string_of_list_ascii (map lower l1) in
  if String.eqb word "inf" || String.eqb word "infinity" then
    Some (S754_infinity s)
  else if String.eqb word "nan" then Some S754_nan
  else
    match number l1 with
    | Some (m, k, l2) =>
        match l2 with
        | [] => Some (of_decimal s m (- k))
        | _ =>
            match exponent l2 with
            | Some (x, []) => Some (of_decimal s m (x - k))
            | _ => None
            end
        end
    | None => None
    end.

(** [float(s)]; [inl] is the [ValueError] of a string that is no
    number *)
Definition of_string (s : string) : py_exception + float :=
  match of_chars (list_ascii_of_string s) with
  | Some x => inr x
  | None => inl (ValueError "could not convert string to float")
  end.

End PyFloat.

Import PyFloat (float).

(** [a / b] on integers: the quotient rounded once to binary64 *)
Definition true_div (a b : Z) : py_exception + float :=
  match a, b with
  | _, Z0 => inl (ZeroDivisionError "division by zero")
  | Z0, _ => inr (S754_zero (b <? 0)%Z)
  | _, _ =>
      let '(q, e, loc) :=
        SFdiv_core_binary PyFloat.prec PyFloat.emax (Z.abs a) 0 (Z.abs b) 0 in
      inr (binary_round_aux PyFloat.prec PyFloat.emax
             (xorb (a <? 0)%Z (b <? 0)%Z) q e loc)
  end.

(** ** Python values

    What the SDK hands back (decoded JSON) and what [create_refund] builds:
    dict literals are association lists in insertion order. *)

#[warnings="-register-all"]
Inductive pyval :=
| PNone
| PBool (b : bool)
| PInt (n : Z)
| PFloat (x : float)
| PStr (s : string)
| PList (l : list pyval)
| PDict (d : list (string * pyval)).

Abbreviation dict := (list (string * pyval)).

Fixpoint dict_get (d : dict) (k : string) : option pyval :=
  match d with
  | (k', v) :: d' => if String.eqb k' k then Some v else dict_get d' k
  | [] => None
  end.

(** [k in d] *)
Definition dict_has (d : dict) (k : string) : bool :=
  match dict_get d k with Some _ => true | None => false end.

(** [d[k]] on a dict *)
Definition dict_item (d : dict) (k : string) : py_exception + pyval :=
  match dict_get d k with
  | Some v => inr v
  | None => inl (KeyError k)
  end.

(** [d.get(k, default)] on a dict *)
Definition dict_get_default (d : dict) (k : string) (default : pyval) : pyval :=
  match dict_get d k with Some v => v | None => default end.

(** [x.get(k, default)] on any value: only a dict has the method *)
Definition py_get (x : pyval) (k : string) (default : pyval)
  : py_exception + pyval :=
  match x with
  | PDict d => inr (dict_get_default d k default)
  | _ => inl (AttributeError "object has no attribute 'get'")
  end.

(** [x[k]] on any value, [k] a string *)
Definition py_item (x : pyval) (k : string) : py_exception + pyval :=
  match x with
  | PDict d => dict_item d k
  | _ => inl (TypeError "indices must be integers or object is not subscriptable")
  end.

Definition chars_of (s : string) : list pyval :=
  map (fun c => PStr (String c EmptyString)) (list_ascii_of_string s).

(** [for e in x] *)
Definition py_iter (x : pyval) : py_exception + list pyval :=
  match x with
  | PList l => inr l
  | PDict d => inr (map (fun kv => PStr (fst kv)) d)
  | PStr s => inr (chars_of s)
  | _ => inl (TypeError "object is not iterable")
  end.

(** ** The state and error monad of the program *)

Definition M (S A : Type) : Type := S -> (raised + A) * S.

#[global] Instance M_ret {S} : MRet (M S) :=
  fun A a s => (inr a, s).

#[global] Instance M_bind {S} : MBind (M S) :=
  fun A B k m s =>
    match m s with
    | (inr a, s') => k a s'
    | (inl e, s') => (inl e, s')
    end.

Definition raise {S A} (e : py_exception) : M S A :=
  fun s => (inl (Exc e), s).

Definition of_result {S A} (r : py_exception + A) : M S A :=
  match r with
  | inl e => raise e
  | inr a => mret a
  end.

(** [try: m  except Exception as e: h e] ([KeyboardInterrupt] is no
    [Exception] and passes) *)
Definition try_except {S A} (m : M S A) (h : py_exception -> M S A) : M S A :=
  fun s =>
    match m s with
    | (inl (Exc e), s') => h e s'
    | r => r
    end.

(** [[f x for x in l]] *)
Fixpoint comprehension {S A B} (f : A -> M S B) (l : list A) : M S (list B) :=
  match l with
  | [] => mret []
  | x :: l' => y ← f x; ys ← comprehension f l'; mret (y :: ys)
  end.

(** ** The log and standard output

    One constructor per call site of [self.logger] and [print], holding
    the values its f-string interpolates (the rendering of a float as
    [.2f] is not spelled out). *)

Inductive level := INFO | WARNING | ERROR.

Inductive message :=
| Literal (text : string)
| LoggingInitialized (log_filename : string)                      (* l. 87 *)
| SquareEnvironment (environment : string)                        (* l. 88 *)
| FoundColumns (fieldnames : option (list string))                (* l. 115 *)
| CsvColumnsFound (fieldnames : list string)                      (* l. 124 *)
| EmptyPaymentId (row_num : nat)                                  (* l. 132 *)
| InvalidAmount (row_num : nat) (amount : float)                  (* l. 139 *)
| InvalidAmountFormat (row_num : nat) (amount_str : string)       (* l. 142 *)
| CsvNotFound (csv_file_path : string)                            (* l. 152 *)
| ErrorReadingCsv (text : string)                                 (* l. 155 *)
| ReadEntries (n : nat)                                           (* l. 158 *)
| StartingFrom (csv_file_path : string)                           (* l. 233 *)
| ProcessingRefund (i n : nat) (payment_id : string) (amount : float)
                                                                  (* l. 251 *)
| RefundSuccessful (row_number : nat) (refund_id status amount : pyval)
                                                                  (* l. 257 *)
| RefundFailedErrors (row_number : nat) (payment_id : string)
    (amount : float) (error_details : list (pyval * pyval))       (* l. 267 *)
| RefundFailedError (row_number : nat) (payment_id : string)
    (amount : float) (error message : pyval)                      (* l. 274 *)
| TotalProcessed (n : nat)                                        (* l. 285 *)
| SuccessfulRefunds (n : Z)                                       (* l. 286 *)
| FailedRefunds (n : Z)                                           (* l. 287 *)
| SuccessRate (percent : float)                                   (* l. 288 *)
| WarningFailed (failed : Z)                                      (* l. 347 *)
| SuccessAll (successful : Z)                                     (* l. 350 *)
| Cancelled                                                       (* l. 354 *)
| FatalError (text : string).                                     (* l. 357 *)

(** ** The world around the program *)

(** What the collaborator [self.refunds_api.refund_payment] does with one
    call: it returns an [ApiResponse], raises, or the user interrupts
    while the call is in flight. [errors = None] stands for a result
    object without the attribute. *)
Record api_response := {
  is_success : bool;
  body : pyval;
  errors : option pyval
}.

Inductive api_event :=
| Returns (result : api_response)
| Raises (e : py_exception)
| Interrupted.

(** What [open], [csv.Sniffer] and [csv.DictReader] make of a path:
    a failure before the header is looked at, or the header
    ([reader.fieldnames]) and the rows the underlying reader yields, each a
    list of fields, after which the reader may raise ([broken]). *)
Inductive csv_source :=
| Fails (e : py_exception)
| Table (fieldnames : option (list string)) (rows : list (list string))
    (broken : option py_exception).

Record environment := {
  open_csv : string -> csv_source;
  (** the [n]-th value of [str(uuid.uuid4())] in this run *)
  uuid4 : nat -> string;
  (** the collaborator, given the bodies of the earlier calls *)
  refund_payment : list pyval -> pyval -> api_event;
  (** [Client(...)] or [setup_logging] failing *)
  startup_error : option py_exception;
  log_filename : string;
  square_environment : string
}.

(** What [create_refund] touches: the tokens drawn and the calls made
    (oldest first). *)
Record api_state := {
  uuids_drawn : nat;
  calls : list pyval
}.

Record state := {
  api : api_state;
  log : list (level * message);
  stdout : list message
}.

Definition logger (lv : level) (m : message) : M state unit :=
  fun st => (inr tt, {| api := api st; log := log st ++ [(lv, m)];
                        stdout := stdout st |}).

Definition print (m : message) : M state unit :=
  fun st => (inr tt, {| api := api st; log := log st;
                        stdout := stdout st ++ [m] |}).

(** run an action of [create_refund]'s world inside the whole state *)
Definition lift_api {A} (m : M api_state A) : M state A :=
  fun st =>
    let '(r, w) := m (api st) in
    (r, {| api := w; log := log st; stdout := stdout st |}).

(** ** [read_csv_file] *)

Record refund_info := {
  payment_id : string;
  amount : float;
  row_number : nat
}.

Definition required_columns : gset string := {[ "payment_id"; "amount" ]}.

(** The text of [f"Missing required columns: {missing}"]. Python prints
    a set in no fixed order; the columns are written here in the order
    payment_id, amount. *)
Definition missing_message (missing : gset string) : string :=
  "Missing required columns: {"
  ++ (if bool_decide ("payment_id" ∈ missing) then "'payment_id'" else "")
  ++ (if bool_decide ("payment_id" ∈ missing) && bool_decide ("amount" ∈ missing)
      then ", " else "")
  ++ (if bool_decide ("amount" ∈ missing) then "'amount'" else "")
  ++ "}".

(** The dict [csv.DictReader] makes of a row that is not blank:
    [dict(zip(fieldnames, row))], then [None] (the [restval]) under every
    field name the row is too short for. Fields beyond the header go under
    the key [None], which no string key reads. *)
Definition dict_row (fieldnames fields : list string)
  : gmap string (option string) :=
  let d := fold_left (fun d kv => <[kv.1 := Some kv.2]> d)
             (zip fieldnames fields) ∅ in
  fold_left (fun d k => <[k := None]> d)
    (drop (length fields) fieldnames) d.

(** [row[k].strip()] *)
Definition row_strip (row : gmap string (option string)) (k : string)
  : py_exception + string :=
  match row !! k with
  | None => inl (KeyError k)
  | Some None =>
      inl (AttributeError "'NoneType' object has no attribute 'strip'")
  | Some (Some s) => inr (strip s)
  end.

(** The body of the [for row_num, row in enumerate(reader, start=2)] loop
    (lines 126-149), over the rows still to come. *)
Fixpoint read_rows (fieldnames : list string) (broken : option py_exception)
  (row_num : nat) (rows : list (list string)) (refund_data : list refund_info)
  : M state (list refund_info) :=
  match rows with
  | [] =>
      match broken with
      | Some e => raise e
      | None => mret refund_data
      end
  | [] :: rest => read_rows fieldnames broken row_num rest refund_data
  | fields :: rest =>
      let row := dict_row fieldnames fields in
      payment_id ← of_result (row_strip row "payment_id");
      amount_str ← of_result (row_strip row "amount");
      if String.eqb payment_id "" then
        logger WARNING (EmptyPaymentId row_num);;
        read_rows fieldnames broken (S row_num) rest refund_data
      else
        match PyFloat.of_string amount_str with
        | inr amount =>
            if PyFloat.leb amount PyFloat.zero then
              logger WARNING (InvalidAmount row_num amount);;
              read_rows fieldnames broken (S row_num) rest refund_data
            else
              read_rows fieldnames broken (S row_num) rest
                (refund_data ++ [{| payment_id := payment_id;
                                    amount := amount;
                                    row_number := row_num |}])
        | inl _ =>
            logger WARNING (InvalidAmountFormat row_num amount_str);;
            read_rows fieldnames broken (S row_num) rest refund_data
        end
  end.

(** [bool(reader.fieldnames)]: [None] and the empty list are false *)
Definition truthy (fieldnames : option (list string)) : bool :=
  match fieldnames with
  | Some (_ :: _) => true
  | _ => false
  end.

(** Lines 103-149: what stands inside the [try]. *)
Definition read_csv_body (env : environment) (csv_file_path : string)
  : M state (list refund_info) :=
  match open_csv env csv_file_path with
  | Fails e => raise e
  | Table fieldnames rows broken =>
      let names := default [] fieldnames in
      if negb (truthy fieldnames)
         || negb (bool_decide (required_columns ⊆ list_to_set names)) then
        logger ERROR (FoundColumns fieldnames);;
        logger ERROR (Literal "Expected columns: payment_id, amount");;
        logger ERROR (Literal "Common issues:");;
        logger ERROR
          (Literal "- Extra empty lines at the beginning of the file");;
        logger ERROR (Literal "- Incorrect column names (case sensitive)");;
        logger ERROR (Literal "- Missing header row");;
        raise (ValueError
                 (missing_message (required_columns ∖ list_to_set names)))
      else
        logger INFO (CsvColumnsFound names);;
        read_rows names broken 2 rows []
  end.

Definition read_csv_file (env : environment) (csv_file_path : string)
  : M state (list refund_info) :=
  refund_data ←
    try_except (read_csv_body env csv_file_path)
      (fun e =>
         match e with
         | FileNotFoundError _ =>
             logger ERROR (CsvNotFound csv_file_path);; raise e
         | _ => logger ERROR (ErrorReadingCsv (exn_str e));; raise e
         end);
  logger INFO (ReadEntries (length refund_data));;
  mret refund_data.

(** ** [create_refund] *)

(** [str(uuid.uuid4())] *)
Definition uuid4_str (env : environment) : M api_state string :=
  fun w => (inr (uuid4 env (uuids_drawn w)),
            {| uuids_drawn := S (uuids_drawn w); calls := calls w |}).

(** [self.refunds_api.refund_payment(body=...)] *)
Definition call_refund_payment (env : environment) (request : pyval)
  : M api_state api_response :=
  fun w =>
    let w' := {| uuids_drawn := uuids_drawn w;
                 calls := calls w ++ [request] |} in
    match refund_payment env (calls w) request with
    | Returns result => (inr result, w')
    | Raises e => (inl (Exc e), w')
    | Interrupted => (inl KeyboardInterrupt, w')
    end.

Definition refund_request_body (key : string) (amount_cents : Z)
  (payment_id : string) : pyval :=
  PDict [ ("idempotency_key", PStr key);
          ("amount_money", PDict [ ("amount", PInt amount_cents);
                                   ("currency", PStr "USD") ]);
          ("payment_id", PStr payment_id);
          ("reason", PStr "Refund processed via batch script") ].

(** Lines 190-206: reading the response. *)
Definition read_response (payment_id : string) (amount : float)
  (result : api_response) : M api_state (bool * dict) :=
  if is_success result then
    refund ← of_result (py_get (body result) "refund" (PDict []));
    refund_id ← of_result (py_get refund "id" PNone);
    status ← of_result (py_get refund "status" PNone);
    amount_money ← of_result (py_get refund "amount_money" (PDict []));
    currency ← of_result (py_get amount_money "currency" PNone);
    created_at ← of_result (py_get refund "created_at" PNone);
    mret (true, [ ("refund_id", refund_id);
                  ("status", status);
                  ("amount", PFloat amount);
                  ("currency", currency);
                  ("created_at", created_at);
                  ("payment_id", PStr payment_id) ])
  else
    es ← of_result (py_iter (default (PList []) (errors result)));
    entries ← comprehension
                (fun e =>
                   code ← of_result (py_get e "code" PNone);
                   detail ← of_result (py_get e "detail" PNone);
                   mret (PDict [ ("code", code); ("detail", detail) ]))
                es;
    mret (false, [ ("errors", PList entries);
                   ("payment_id", PStr payment_id);
                   ("amount", PFloat amount) ]).

(** Lines 173-206: what stands inside the [try]. *)
Definition create_refund_body (env : environment) (payment_id : string)
  (amount : float) : M api_state (bool * dict) :=
  amount_cents ←
    of_result (PyFloat.to_int (PyFloat.mul amount (PyFloat.of_Z 100)));
  key ← uuid4_str env;
  result ← call_refund_payment env
             (refund_request_body key amount_cents payment_id);
  read_response payment_id amount result.

Definition create_refund (env : environment) (payment_id : string)
  (amount : float) : M api_state (bool * dict) :=
  try_except (create_refund_body env payment_id amount)
    (fun e =>
       if is_APIException e then
         mret (false, [ ("error", PStr "API Exception");
                        ("message", PStr (exn_str e));
                        ("payment_id", PStr payment_id);
                        ("amount", PFloat amount) ])
       else
         mret (false, [ ("error", PStr "Unexpected Error");
                        ("message", PStr (exn_str e));
                        ("payment_id", PStr payment_id);
                        ("amount", PFloat amount) ])).

(** ** [process_refunds] *)

Record summary := {
  total : Z;
  successful : Z;
  failed : Z
}.

(** Lines 255-280: counting and logging one outcome. *)
Definition record_outcome (refund : refund_info) (success : bool)
  (result : dict) (counters : Z * Z) : M state (Z * Z) :=
  let '(successful_refunds, failed_refunds) := counters in
  if success then
    refund_id ← of_result (dict_item result "refund_id");
    status ← of_result (dict_item result "status");
    amt ← of_result (dict_item result "amount");
    logger INFO (RefundSuccessful (row_number refund) refund_id status amt);;
    mret (successful_refunds + 1, failed_refunds)
  else
    (if dict_has result "errors" then
       errs ← of_result (dict_item result "errors");
       es ← of_result (py_iter errs);
       error_details ← comprehension
                         (fun e =>
                            code ← of_result (py_item e "code");
                            detail ← of_result (py_item e "detail");
                            mret (code, detail))
                         es;
       logger ERROR (RefundFailedErrors (row_number refund)
                       (payment_id refund) (amount refund) error_details)
     else
       logger ERROR (RefundFailedError (row_number refund)
                       (payment_id refund) (amount refund)
                       (dict_get_default result "error" (PStr "Unknown"))
                       (dict_get_default result "message"
                          (PStr "No details"))));;
    mret (successful_refunds, failed_refunds + 1).

(** One turn of the loop of lines 246-280. *)
Definition refund_step (env : environment) (n i : nat) (refund : refund_info)
  (counters : Z * Z) : M state (Z * Z) :=
  logger INFO (ProcessingRefund i n (payment_id refund) (amount refund));;
  outcome ← lift_api (create_refund env (payment_id refund) (amount refund));
  record_outcome refund outcome.1 outcome.2 counters.

(** [for i, refund_info in enumerate(refund_data, 1)], from turn [i] on;
    [n] is [len(refund_data)]. *)
Fixpoint refund_loop (env : environment) (n i : nat)
  (rest : list refund_info) (counters : Z * Z) : M state (Z * Z) :=
  match rest with
  | [] => mret counters
  | refund :: rest' =>
      counters' ← refund_step env n i refund counters;
      refund_loop env n (S i) rest' counters'
  end.

Definition process_refunds (env : environment) (csv_file_path : string)
  : M state summary :=
  logger INFO (StartingFrom csv_file_path);;
  refund_data ← read_csv_file env csv_file_path;
  match refund_data with
  | [] =>
      logger WARNING (Literal "No valid refund data found in CSV");;
      mret {| total := 0; successful := 0; failed := 0 |}
  | _ =>
      counters ← refund_loop env (length refund_data) 1 refund_data (0, 0);
      let '(successful_refunds, failed_refunds) := counters in
      let total_processed := length refund_data in
      logger INFO
        (Literal (String "010" "=== PROCESSING COMPLETE ==="));;
      logger INFO (TotalProcessed total_processed);;
      logger INFO (SuccessfulRefunds successful_refunds);;
      logger INFO (FailedRefunds failed_refunds);;
      ratio ← of_result (true_div successful_refunds
                           (Z.of_nat total_processed));
      logger INFO (SuccessRate (PyFloat.mul ratio (PyFloat.of_Z 100)));;
      mret {| total := Z.of_nat total_processed;
              successful := successful_refunds;
              failed := failed_refunds |}
  end.

(** ** [main], after the command line is parsed *)

(** [SquareRefundProcessor(...)], lines 47-58 and 87-88 *)
Definition init_processor (env : environment) : M state unit :=
  match startup_error env with
  | Some e => raise e
  | None =>
      logger INFO (LoggingInitialized (log_filename env));;
      logger INFO (SquareEnvironment (square_environment env))
  end.

(** Lines 335-358; the value is the argument of [sys.exit]. *)
Definition main (env : environment) (csv : string) (st : state) : Z * state :=
  match (init_processor env;; process_refunds env csv) st with
  | (inr results, st') =>
      if (failed results >? 0)%Z then
        (1, (print (WarningFailed (failed results)) st').2)
      else
        (0, (print (SuccessAll (successful results)) st').2)
  | (inl KeyboardInterrupt, st') => (1, (print Cancelled st').2)
  | (inl (Exc e), st') => (1, (print (FatalError (exn_str e)) st').2)
  end.

Definition initial_state : state :=
  {| api := {| uuids_drawn := 0; calls := [] |}; log := []; stdout := [] |}.

(** * The vocabulary of the properties *)

(** ** Actions *)

(** An action that only computes: it leaves the state alone and the
    user cannot interrupt it. *)
Definition pure {St A} (m : M St A) : Prop :=
  forall s, (exists a, m s = (inr a, s)) \/ (exists e, m s = (inl (Exc e), s)).

(** An action that leaves [api] alone, whatever it returns. *)
Definition keeps_api {A} (m : M state A) : Prop :=
  forall st, api (m st).2 = api st.

(** The load is never interrupted: the model lets the user interrupt
    only a call in flight. *)
Definition uninterrupted {A} (m : M state A) : Prop :=
  forall s r s', m s = (r, s') -> r <> inl KeyboardInterrupt.

(** ** States *)

(** [st] with more lines in its log. *)
Definition add_log (st : state) (entries : list (level * message)) : state :=
  {| api := api st; log := log st ++ entries; stdout := stdout st |}.

(** [st] with the collaborator's side replaced. *)
Definition with_api (st : state) (w : api_state) : state :=
  {| api := w; log := log st; stdout := stdout st |}.

(** The state in which [read_csv_file] starts. *)
Definition started (csv_file_path : string) (st : state) : state :=
  add_log st [(INFO, StartingFrom csv_file_path)].

(** ** What [create_refund] returns and sends *)

(** The result dict of the two [except] clauses. *)
Definition exception_result (e : py_exception) (payment_id : string)
  (amount : float) : dict :=
  [ ("error", PStr (if is_APIException e then "API Exception"
                    else "Unexpected Error"));
    ("message", PStr (exn_str e));
    ("payment_id", PStr payment_id);
    ("amount", PFloat amount) ].

(** An entry of the list under 'errors', as line 203 builds it. *)
Definition is_error_entry (e : pyval) : Prop :=
  exists code detail, e = PDict [ ("code", code); ("detail", detail) ].

(** The three shapes of dict [create_refund] returns. *)
Definition well_formed (success : bool) (result : dict) : Prop :=
  if success then
    exists refund_id status currency created_at amount payment_id,
      result = [ ("refund_id", refund_id); ("status", status);
                 ("amount", PFloat amount); ("currency", currency);
                 ("created_at", created_at);
                 ("payment_id", PStr payment_id) ]
  else
    (exists entries amount payment_id,
       Forall is_error_entry entries /\
       result = [ ("errors", PList entries);
                  ("payment_id", PStr payment_id);
                  ("amount", PFloat amount) ])
    \/ (exists e amount payment_id,
          result = exception_result e payment_id amount).

(** How a run of [create_refund] goes, by what the collaborator does. *)
Inductive refund_run (env : environment) (payment_id : string)
  (amount : float) (w : api_state)
  : raised + bool * dict -> api_state -> Prop :=
| run_no_call e :
    PyFloat.to_int (PyFloat.mul amount (PyFloat.of_Z 100)) = inl e ->
    refund_run env payment_id amount w
      (inr (false, exception_result e payment_id amount)) w
| run_called amount_cents request event r :
    PyFloat.to_int (PyFloat.mul amount (PyFloat.of_Z 100)) = inr amount_cents ->
    request = refund_request_body (uuid4 env (uuids_drawn w)) amount_cents
                payment_id ->
    event = refund_payment env (calls w) request ->
    match event with
    | Interrupted => r = inl KeyboardInterrupt
    | Raises e => r = inr (false, exception_result e payment_id amount)
    | Returns response =>
        exists success result,
          r = inr (success, result)
          /\ well_formed success result
          /\ (success = true -> is_success response = true)
          /\ (success = false ->
              dict_get result "payment_id" = Some (PStr payment_id)
              /\ dict_get result "amount" = Some (PFloat amount))
    end ->
    refund_run env payment_id amount w r
      {| uuids_drawn := S (uuids_drawn w);
         calls := calls w ++ [request] |}.

(** The request [create_refund] sends for [amount_cents]. *)
Definition sends (env : environment) (payment_id : string) (amount : float)
  (w : api_state) (amount_cents : Z) : Prop :=
  calls (create_refund env payment_id amount w).2
  = (calls w ++ [refund_request_body (uuid4 env (uuids_drawn w)) amount_cents
                   payment_id])%list.

(** The idempotency token of a request body. *)
Definition token_of (request : pyval) : option pyval :=
  match request with
  | PDict d => dict_get d "idempotency_key"
  | _ => None
  end.

(** The tokens of the calls made so far are the draws made so far, in
    order: every call took a draw of its own. *)
Definition drawn_in_order (env : environment) (w : api_state) : Prop :=
  map token_of (calls w)
  = map (fun i => Some (PStr (uuid4 env i))) (seq 0 (uuids_drawn w)).

(** ** The outcomes of a run *)

(** How many of the outcomes are [b]. *)
Definition count (b : bool) (outcomes : list bool) : Z :=
  Z.of_nat (count_occ Bool.bool_dec outcomes b).

(** The counters after one more outcome. *)
Definition bump (success : bool) (counters : Z * Z) : Z * Z :=
  if success then (counters.1 + 1, counters.2)
  else (counters.1, counters.2 + 1).

(** The calls of [create_refund] the loop makes, without the log: the
    outcome of each row, or [None] when the user interrupted, and the
    tokens and calls left behind. *)
Fixpoint run_rows (env : environment) (rows : list refund_info)
  (w : api_state) : option (list bool) * api_state :=
  match rows with
  | [] => (Some [], w)
  | refund :: rest =>
      match create_refund env (payment_id refund) (amount refund) w with
      | (inr (success, _), w') =>
          let '(outcomes, w'') := run_rows env rest w' in
          (cons success <$> outcomes, w'')
      | (inl _, w') => (None, w')
      end
  end.

(** The summary that goes with the outcomes of the rows. *)
Definition summary_of (outcomes : list bool) : summary :=
  {| total := Z.of_nat (length outcomes);
     successful := count true outcomes;
     failed := count false outcomes |}.

(** The exit contract in the spec's words: 0 when every processed row
    succeeded, which includes no row at all; 1 when a row failed, when the
    input could not be loaded, when the user interrupted, and on a fatal
    error at startup. *)
Definition exit_code_contract (env : environment) (csv : string)
  (st0 : state) : Z :=
  match init_processor env st0 with
  | (inl _, _) => 1
  | (inr _, st) =>
      match read_csv_file env csv (started csv st) with
      | (inl _, _) => 1
      | (inr rows, _) =>
          match (run_rows env rows (api st0)).1 with
          | None => 1
          | Some outcomes => if forallb id outcomes then 0 else 1
          end
      end
  end.

(** ** What the loader logs and keeps *)


(** What lines 127-149 make of the two fields of a row: the request's
    payment id and amount, or nothing when the row is skipped. *)
Definition accepts (payment_id_field amount_field : string)
  : option (string * float) :=
  let payment_id := strip payment_id_field in
  if String.eqb payment_id "" then None
  else
    match PyFloat.of_string (strip amount_field) with
    | inr amount =>
        if PyFloat.leb amount PyFloat.zero then None
        else Some (payment_id, amount)
    | inl _ => None
    end.

(** The request a kept row adds to [refund_data]. *)
Definition kept (verdict : option (string * float)) (row_num : nat)
  : list refund_info :=
  match verdict with
  | Some (payment_id, amount) =>
      [ {| payment_id := payment_id; amount := amount;
           row_number := row_num |} ]
  | None => []
  end.

(** ** Sample worlds *)

(** A response to a refund that went through. *)
Definition ok_response : api_response :=
  {| is_success := true;
     body := PDict [ ("refund",
                      PDict [ ("id", PStr "REFUND_1");
                              ("status", PStr "PENDING");
                              ("amount_money",
                               PDict [ ("amount", PInt 725);
                                       ("currency", PStr "USD") ]);
                              ("created_at", PStr "2024-01-01T00:00:00Z") ]) ];
     errors := None |}.

(** A response to a refund the API declined. *)
Definition declined_response : api_response :=
  {| is_success := false;
     body := PDict [];
     errors := Some (PList [ PDict [ ("category", PStr "REFUND_ERROR");
                                     ("code", PStr "REFUND_DECLINED");
                                     ("detail", PStr "declined") ] ]) |}.

(** A collaborator that declines the refunds of one payment and accepts
    all others. *)
Definition declines (bad : string) (history : list pyval) (request : pyval)
  : api_event :=
  match py_item request "payment_id" with
  | inr (PStr p) =>
      if String.eqb p bad then Returns declined_response
      else Returns ok_response
  | _ => Raises (TypeError "payment_id")
  end.

(** Tokens that differ from draw to draw. *)
Definition sample_uuid (n : nat) : string :=
  string_of_list_ascii (repeat "u"%char (S n)).

(** A world with one file, whatever its path. *)
Definition world (source : csv_source) (tokens : nat -> string)
  (collaborator : list pyval -> pyval -> api_event) : environment :=
  {| open_csv := fun _ => source;
     uuid4 := tokens;
     refund_payment := collaborator;
     startup_error := None;
     log_filename := "square_refunds_20240101_000000.log";
     square_environment := "sandbox" |}.

Definition header : list string := ["payment_id"; "amount"].

(** Two valid rows; the refund of the first is declined. *)
Definition two_rows : environment :=
  world (Table (Some header) [["PAY_A"; "5.00"]; ["PAY_B"; "7.25"]] None)
    sample_uuid (declines "PAY_A").

(** A file without data rows; a collaborator that raises. *)
Definition raising : environment :=
  world (Table (Some header) [] None) sample_uuid
    (fun _ _ => Raises (APIException "UNAUTHORIZED")).

(** A header that spells the amount column 'Amount'. *)
Definition wrong_case : environment :=
  world (Table (Some ["payment_id"; "Amount"]) [["PAY_1"; "10.50"]] None)
    sample_uuid (fun _ _ => Returns ok_response).

(** A second row with a payment id and nothing else. *)
Definition short_row : environment :=
  world (Table (Some header)
           [["PAY_1"; "10.50"]; ["PAY_2"]; ["PAY_3"; "7.25"]] None)
    sample_uuid (fun _ _ => Returns ok_response).

(** A source of tokens that draws the same value twice. *)
Definition same_token : environment :=
  world (Table (Some header) [["PAY_A"; "5.00"]; ["PAY_B"; "7.25"]] None)
    (fun _ => "6f1d3c1e-8a47-4c59-9b0e-2f7d5a1c3e90")
    (fun _ _ => Returns ok_response).

(** One row, whose amount is the text nan. *)
Definition nan_row : environment :=
  world (Table (Some header) [["PAY_1"; "nan"]] None) sample_uuid
    (fun _ _ => Returns ok_response).

(** [float("1e308")]: it passes the loader, and its product with 100 is
    infinite. *)
Definition huge : float := S754_finite false 5010420900022432 971.

(** [float("10.005")] *)
Definition ten_005 : float := S754_finite false 5632314283980227 (-49).

(** ** Rows, warnings and log-only actions *)


(** A blank line, of which the csv reader makes the empty list. *)
Definition is_blank (fields : list string) : bool :=
  match fields with
  | [] => true
  | _ => false
  end.

(** The rows [csv.DictReader] hands over: those that are not blank. *)
Definition data_rows (rows : list (list string)) : list (list string) :=
  List.filter (fun fields => negb (is_blank fields)) rows.

(** The warnings of lines 132, 139 and 142. *)
Definition is_skip_warning (entry : level * message) : bool :=
  match entry with
  | (WARNING, EmptyPaymentId _)
  | (WARNING, InvalidAmount _ _)
  | (WARNING, InvalidAmountFormat _ _) => true
  | _ => false
  end.

(** What line 152 or line 155 logs about the exception it re-raises. *)
Definition load_error_line (csv_file_path : string) (e : py_exception)
  : level * message :=
  match e with
  | FileNotFoundError _ => (ERROR, CsvNotFound csv_file_path)
  | _ => (ERROR, ErrorReadingCsv (exn_str e))
  end.

(** A request the loader may hand over: its payment id is not empty and
    has no white space around it, its amount is not [<= 0], and its row
    number is one of the [n] numbers from [first] on. *)
Definition loaded_ok (first n : nat) (r : refund_info) : Prop :=
  payment_id r <> ""
  /\ strip (payment_id r) = payment_id r
  /\ PyFloat.leb (amount r) PyFloat.zero = false
  /\ (first <= row_number r < first + n)%nat.

(** The rows of the spec's end-to-end scenario, with a blank line and
    white space around a payment id thrown in. *)
Definition four_rows : environment :=
  world (Table (Some ["note"; "amount"; "payment_id"])
           [ ["first"; "10.50"; " PAY_1 "];
             ["second"; "-3"; "PAY_2"];
             [];
             ["third"; "5.00"; ""];
             ["fourth"; "7.25"; "PAY_3"; "extra"] ] None)
    sample_uuid (fun _ _ => Returns ok_response).


(** ** The calls a run makes *)

(** The request bodies the rows give rise to, in order: one for each row
    whose amount converts to cents, with the next token; none for a row
    whose amount does not convert. [n] is the number of tokens drawn
    before. *)
Fixpoint expected_calls (env : environment) (n : nat)
  (rows : list refund_info) : list pyval :=
  match rows with
  | [] => []
  | r :: rest =>
      match PyFloat.to_int (PyFloat.mul (amount r) (PyFloat.of_Z 100)) with
      | inr amount_cents =>
          refund_request_body (uuid4 env n) amount_cents (payment_id r)
          :: expected_calls env (S n) rest
      | inl _ => expected_calls env n rest
      end
  end.

(** ** Reading a response *)

(** A body lines 191-198 can read: a dict whose 'refund' entry, when it
    has one, is a dict whose 'amount_money' entry, when it has one, is a
    dict. *)
Definition readable (response : api_response) : bool :=
  match body response with
  | PDict b =>
      match dict_get_default b "refund" (PDict []) with
      | PDict r =>
          match dict_get_default r "amount_money" (PDict []) with
          | PDict _ => true
          | _ => false
          end
      | _ => false
      end
  | _ => false
  end.

(** The 'refund' entry of a readable body. *)
Definition refund_of (response : api_response) : dict :=
  match body response with
  | PDict b =>
      match dict_get_default b "refund" (PDict []) with
      | PDict r => r
      | _ => []
      end
  | _ => []
  end.

(** What line 203 keeps of an error of the API. *)
Definition brief (e : pyval) : pyval :=
  match e with
  | PDict d => PDict [ ("code", dict_get_default d "code" PNone);
                       ("detail", dict_get_default d "detail" PNone) ]
  | _ => PNone
  end.

Definition is_dict (x : pyval) : Prop := exists d, x = PDict d.

(** A response that says success and has no body to read. *)
Definition empty_success : api_response :=
  {| is_success := true; body := PNone; errors := None |}.

(** ** Lines of the log *)

(** The line of lines 257-262, of lines 267-280, and of line 251. *)
Definition is_success_line (entry : level * message) : bool :=
  match entry with
  | (INFO, RefundSuccessful _ _ _ _) => true
  | _ => false
  end.

Definition is_failure_line (entry : level * message) : bool :=
  match entry with
  | (ERROR, RefundFailedErrors _ _ _ _)
  | (ERROR, RefundFailedError _ _ _ _ _) => true
  | _ => false
  end.

Definition is_processing_line (entry : level * message) : bool :=
  match entry with
  | (INFO, ProcessingRefund _ _ _ _) => true
  | _ => false
  end.

(** How many of the entries are of a kind. *)
Definition lines (kind : level * message -> bool)
  (entries : list (level * message)) : Z :=
  Z.of_nat (length (List.filter kind entries)).

(** ** What [main] prints *)


(** * Properties *)

(** ** The monad *)

Section Monad.
Context {St : Type}.

Lemma bind_inr {A B} (m : M St A) (k : A -> M St B) s a s1 :
  m s = (inr a, s1) -> (m ≫= k) s = k a s1.
Proof. intros H. unfold mbind, M_bind. now rewrite H. Qed.

Lemma bind_inl {A B} (m : M St A) (k : A -> M St B) s e s1 :
  m s = (inl e, s1) -> (m ≫= k) s = (inl e, s1).
Proof. intros H. unfold mbind, M_bind. now rewrite H. Qed.

Lemma bind_inv {A B} (m : M St A) (k : A -> M St B) s b s' :
  (m ≫= k) s = (inr b, s') ->
  exists a s1, m s = (inr a, s1) /\ k a s1 = (inr b, s').
Proof.
  unfold mbind, M_bind. destruct (m s) as [[e|a] s1]; [discriminate|].
  intros H. now exists a, s1.
Qed.

Lemma try_except_inr {A} (m : M St A) h s a s1 :
  m s = (inr a, s1) -> try_except m h s = (inr a, s1).
Proof. intros H. unfold try_except. now rewrite H. Qed.

Lemma try_except_exc {A} (m : M St A) h s e s1 :
  m s = (inl (Exc e), s1) -> try_except m h s = h e s1.
Proof. intros H. unfold try_except. now rewrite H. Qed.

Lemma try_except_interrupt {A} (m : M St A) h s s1 :
  m s = (inl KeyboardInterrupt, s1) ->
  try_except m h s = (inl KeyboardInterrupt, s1).
Proof. intros H. unfold try_except. now rewrite H. Qed.

Lemma pure_of_result {A} (r : py_exception + A) :
  pure (of_result r : M St A).
Proof. intros s. destruct r; [right|left]; eauto. Qed.

Lemma pure_ret {A} (a : A) : pure (mret a : M St A).
Proof. intros s. left. now exists a. Qed.

Lemma pure_bind {A B} (m : M St A) (k : A -> M St B) :
  pure m -> (forall a, pure (k a)) -> pure (m ≫= k).
Proof.
  intros Hm Hk s. destruct (Hm s) as [[a Ha]|[e He]].
  - rewrite (bind_inr _ _ _ _ _ Ha). apply Hk.
  - rewrite (bind_inl _ _ _ _ _ He). right. now exists e.
Qed.

Lemma pure_comprehension {A B} (f : A -> M St B) l :
  (forall x, pure (f x)) -> pure (comprehension f l).
Proof.
  intros Hf. induction l as [|x l IH]; simpl.
  - apply pure_ret.
  - apply pure_bind; [apply Hf|]. intros y.
    apply pure_bind; [apply IH|]. intros ys. apply pure_ret.
Qed.

(** What a comprehension returns has one element per element it went
    through, each made by the body. *)
Lemma comprehension_Forall {A B} (f : A -> M St B) (P : B -> Prop) :
  (forall x s y s', f x s = (inr y, s') -> P y) ->
  forall l s ys s', comprehension f l s = (inr ys, s') -> Forall P ys.
Proof.
  intros Hf. induction l as [|x l IH]; simpl; intros s ys s' H.
  - inversion H. constructor.
  - apply bind_inv in H as (y & s1 & Hy & H).
    apply bind_inv in H as (ys' & s2 & Hys & H).
    inversion H; subst. constructor; eauto.
Qed.
End Monad.

Create HintDb pure.
#[global] Hint Resolve pure_of_result pure_ret pure_bind pure_comprehension
  : pure.

(** ** The log never touches the collaborator *)

Lemma logger_spec lv m st :
  logger lv m st =
    (inr tt, {| api := api st; log := log st ++ [(lv, m)];
                stdout := stdout st |}).
Proof. reflexivity. Qed.

Lemma keeps_api_ret {A} (a : A) : keeps_api (mret a).
Proof. intros st. reflexivity. Qed.

Lemma keeps_api_raise {A} e : keeps_api (raise e : M state A).
Proof. intros st. reflexivity. Qed.

Lemma keeps_api_of_result {A} (r : py_exception + A) : keeps_api (of_result r).
Proof. destruct r; intros st; reflexivity. Qed.

Lemma keeps_api_logger lv m : keeps_api (logger lv m).
Proof. intros st. reflexivity. Qed.

Lemma keeps_api_bind {A B} (m : M state A) (k : A -> M state B) :
  keeps_api m -> (forall a, keeps_api (k a)) -> keeps_api (m ≫= k).
Proof.
  intros Hm Hk st. unfold mbind, M_bind.
  specialize (Hm st). destruct (m st) as [[e|a] st1]; simpl in *; [easy|].
  now rewrite Hk.
Qed.

Lemma keeps_api_try_except {A} (m : M state A) h :
  keeps_api m -> (forall e, keeps_api (h e)) -> keeps_api (try_except m h).
Proof.
  intros Hm Hh st. unfold try_except.
  specialize (Hm st). destruct (m st) as [[[e|]|a] st1]; simpl in *; try easy.
  now rewrite Hh.
Qed.

Lemma keeps_api_comprehension {A B} (f : A -> M state B) l :
  (forall x, keeps_api (f x)) -> keeps_api (comprehension f l).
Proof.
  intros Hf. induction l as [|x l IH]; simpl.
  - apply keeps_api_ret.
  - apply keeps_api_bind; [apply Hf|]. intros y.
    apply keeps_api_bind; [apply IH|]. intros ys. apply keeps_api_ret.
Qed.

Ltac keeps_api_tac :=
  repeat first
    [ apply keeps_api_ret | apply keeps_api_raise | apply keeps_api_of_result
    | apply keeps_api_logger
    | apply keeps_api_bind; [|intros ?]
    | apply keeps_api_try_except; [|intros ?]
    | apply keeps_api_comprehension; intros ?
    | match goal with |- keeps_api (if ?b then _ else _) => destruct b end
    | match goal with |- keeps_api (match ?x with _ => _ end) => destruct x end ].

Lemma read_rows_keeps_api fieldnames broken rows :
  forall row_num refund_data,
    keeps_api (read_rows fieldnames broken row_num rows refund_data).
Proof.
  induction rows as [|fields rest IH]; intros row_num refund_data; simpl.
  - destruct broken; keeps_api_tac.
  - destruct fields as [|f fs]; [apply IH|].
    keeps_api_tac; apply IH.
Qed.

Lemma read_csv_file_keeps_api env csv_file_path :
  keeps_api (read_csv_file env csv_file_path).
Proof.
  unfold read_csv_file, read_csv_body.
  apply keeps_api_bind; [|intros ?; keeps_api_tac].
  apply keeps_api_try_except; [|intros ?; keeps_api_tac].
  destruct (open_csv env csv_file_path); [keeps_api_tac|].
  match goal with |- keeps_api (if ?b then _ else _) => destruct b end.
  - keeps_api_tac.
  - apply keeps_api_bind; [keeps_api_tac|]. intros _. apply read_rows_keeps_api.
Qed.

(** ** [create_refund] *)

Lemma create_refund_catches env payment_id amount w e w' :
  create_refund_body env payment_id amount w = (inl (Exc e), w') ->
  create_refund env payment_id amount w
  = (inr (false, exception_result e payment_id amount), w').
Proof.
  intros H. unfold create_refund. rewrite (try_except_exc _ _ _ _ _ H).
  unfold exception_result. now destruct (is_APIException e).
Qed.

Lemma create_refund_never_raises env payment_id amount w e w' :
  create_refund env payment_id amount w <> (inl (Exc e), w').
Proof.
  unfold create_refund, try_except.
  destruct (create_refund_body env payment_id amount w) as [[[e'|]|a] w1];
    try discriminate.
  destruct (is_APIException e'); discriminate.
Qed.

Lemma read_response_pure payment_id amount result :
  pure (read_response payment_id amount result).
Proof.
  unfold read_response. destruct (is_success result); auto 20 with pure.
Qed.

Lemma read_response_result payment_id amount response w success result w' :
  read_response payment_id amount response w = (inr (success, result), w') ->
  well_formed success result
  /\ success = is_success response
  /\ (success = false ->
      dict_get result "payment_id" = Some (PStr payment_id)
      /\ dict_get result "amount" = Some (PFloat amount)).
Proof.
  unfold read_response. destruct (is_success response); intros H.
  - repeat (apply bind_inv in H as (? & ? & _ & H)).
    inversion H; subst. split; [|split; [reflexivity|discriminate]].
    simpl. eauto 10.
  - apply bind_inv in H as (es & w1 & _ & H).
    apply bind_inv in H as (entries & w2 & Hc & H).
    inversion H; subst. split; [|split; [reflexivity|intros _; split; reflexivity]].
    left. exists entries, amount, payment_id. split; [|reflexivity].
    revert Hc. apply comprehension_Forall. clear.
    intros e s y s' H.
    repeat (apply bind_inv in H as (? & ? & _ & H)).
    inversion H. red. eauto.
Qed.

Lemma create_refund_run env payment_id amount w :
  refund_run env payment_id amount w
    (create_refund env payment_id amount w).1
    (create_refund env payment_id amount w).2.
Proof.
  destruct (PyFloat.to_int (PyFloat.mul amount (PyFloat.of_Z 100)))
    as [e|amount_cents] eqn:Hint.
  - rewrite (create_refund_catches env payment_id amount w e w).
    + now constructor.
    + unfold create_refund_body. rewrite Hint. reflexivity.
  - set (request := refund_request_body (uuid4 env (uuids_drawn w))
                      amount_cents payment_id).
    set (w1 := {| uuids_drawn := S (uuids_drawn w);
                  calls := calls w ++ [request] |}).
    assert (Hbody : create_refund_body env payment_id amount w =
              match refund_payment env (calls w) request with
              | Returns response => read_response payment_id amount response w1
              | Raises e => (inl (Exc e), w1)
              | Interrupted => (inl KeyboardInterrupt, w1)
              end).
    { unfold create_refund_body. rewrite Hint.
      unfold mbind at 1, M_bind at 1, of_result, mret, M_ret.
      unfold mbind at 1, M_bind at 1, uuid4_str.
      unfold mbind at 1, M_bind at 1, call_refund_payment. simpl.
      fold request. fold w1.
      now destruct (refund_payment env (calls w) request). }
    destruct (refund_payment env (calls w) request) as [response|e|] eqn:Hev.
    + destruct (read_response_pure payment_id amount response w1)
        as [[[success result] Hr]|[e He]].
      * rewrite Hr in Hbody.
        unfold create_refund. rewrite (try_except_inr _ _ _ _ _ Hbody). simpl.
        eapply run_called; eauto. rewrite Hev.
        destruct (read_response_result _ _ _ _ _ _ _ Hr) as (Hwf & Hs & Hf).
        exists success, result. repeat split; try tauto; congruence.
      * rewrite He in Hbody.
        rewrite (create_refund_catches _ _ _ _ _ _ Hbody). simpl.
        eapply run_called; eauto. rewrite Hev.
        exists false, (exception_result e payment_id amount).
        repeat split; try discriminate. right. eauto.
    + rewrite (create_refund_catches _ _ _ _ _ _ Hbody). simpl.
      eapply run_called; eauto. now rewrite Hev.
    + unfold create_refund.
      rewrite (try_except_interrupt _ _ _ _ Hbody). simpl.
      eapply run_called; eauto. now rewrite Hev.
Qed.

(** ** One turn of the loop *)

Lemma error_details_ok entries (st : state) :
  Forall is_error_entry entries ->
  exists details,
    comprehension (S := state)
      (fun e =>
         code ← of_result (py_item e "code");
         detail ← of_result (py_item e "detail");
         mret (code, detail))
      entries st = (inr details, st).
Proof.
  induction 1 as [|e entries (code & detail & ->) _ (details & IH)].
  - now exists [].
  - exists ((code, detail) :: details).
    cbn [comprehension].
    erewrite bind_inr by reflexivity.
    erewrite bind_inr by exact IH.
    reflexivity.
Qed.

Lemma record_outcome_spec refund success result counters st :
  well_formed success result ->
  exists entry,
    record_outcome refund success result counters st
    = (inr (bump success counters), add_log st [entry]).
Proof.
  destruct counters as [s f]. unfold record_outcome, bump.
  destruct success; cbn [fst snd].
  - intros (refund_id & status & currency & created_at & amt & pid & ->).
    eexists. reflexivity.
  - intros [(entries & amt & pid & Hall & ->)|(e & amt & pid & ->)].
    + destruct (error_details_ok entries st Hall) as (details & Hd).
      eexists.
      erewrite bind_inr; [reflexivity|].
      change (dict_has _ "errors") with true. cbv iota.
      erewrite bind_inr by reflexivity.
      erewrite bind_inr by reflexivity.
      erewrite bind_inr by exact Hd.
      reflexivity.
    + eexists. reflexivity.
Qed.

Lemma refund_step_spec env n i refund counters st :
  let r := create_refund env (payment_id refund) (amount refund) (api st) in
  exists entries,
    refund_step env n i refund counters st
    = (match r.1 with
       | inr (success, _) => inr (bump success counters)
       | inl e => inl e
       end,
       add_log (with_api st r.2) entries).
Proof.
  intros r. unfold refund_step.
  rewrite (bind_inr _ _ _ _ _ (logger_spec _ _ _)).
  unfold mbind, M_bind, lift_api. simpl. fold r.
  pose proof (create_refund_run env (payment_id refund) (amount refund) (api st))
    as Hrun.
  fold r in Hrun. destruct r as [[e|[success result]] w]; simpl in *.
  - eexists. reflexivity.
  - assert (Hwf : well_formed success result).
    { inversion Hrun as [e He|cents request event r0 Hc Hreq Hev Hcase];
        subst; simpl.
      - right. eauto.
      - destruct (refund_payment env (calls (api st)) _).
        + destruct Hcase as (s' & r' & Heq & Hwf & _). now inversion Heq.
        + inversion Hcase. right. eauto.
        + discriminate. }
    destruct (record_outcome_spec refund success result counters
                (add_log (with_api st w)
                   [(INFO, ProcessingRefund i n (payment_id refund)
                             (amount refund))]) Hwf) as (entry & He).
    eexists
      [(INFO, ProcessingRefund i n (payment_id refund) (amount refund)); entry].
    unfold add_log, with_api in *. simpl in *. rewrite He.
    now rewrite <- app_assoc.
Qed.

(** ** The whole loop *)

Lemma count_cons b success outcomes :
  count b (success :: outcomes)
  = (if Bool.eqb success b then 1 else 0) + count b outcomes.
Proof.
  unfold count. simpl.
  destruct (Bool.bool_dec success b) as [->|Hne].
  - rewrite Bool.eqb_reflx. lia.
  - destruct success, b; try congruence; simpl; lia.
Qed.

Lemma count_total outcomes :
  count true outcomes + count false outcomes = Z.of_nat (length outcomes).
Proof.
  induction outcomes as [|[] outcomes IH]; [reflexivity| |];
    rewrite !count_cons; simpl length; simpl Bool.eqb; lia.
Qed.

Lemma count_nonneg b outcomes : 0 <= count b outcomes.
Proof. unfold count. lia. Qed.

Lemma refund_loop_spec env n rows :
  forall i counters st,
  exists entries,
    refund_loop env n i rows counters st
    = (match (run_rows env rows (api st)).1 with
       | Some outcomes =>
           inr (counters.1 + count true outcomes,
                counters.2 + count false outcomes)
       | None => inl KeyboardInterrupt
       end,
       add_log (with_api st (run_rows env rows (api st)).2) entries).
Proof.
  induction rows as [|refund rest IH]; intros i counters st; simpl.
  - exists []. destruct counters as [s f], st as [w l o].
    unfold add_log, with_api, count. simpl.
    rewrite app_nil_r, !Z.add_0_r. reflexivity.
  - destruct (refund_step_spec env n i refund counters st) as (es & Hstep).
    pose proof (create_refund_never_raises env (payment_id refund)
                  (amount refund) (api st)) as Hnever.
    destruct (create_refund env (payment_id refund) (amount refund) (api st))
      as [[[e|]|[success result]] w] eqn:Hc; simpl in Hstep.
    + now destruct (Hnever e w).
    + exists es. now rewrite (bind_inl _ _ _ _ _ Hstep).
    + rewrite (bind_inr _ _ _ _ _ Hstep).
      destruct (IH (S i) (bump success counters)
                  (add_log (with_api st w) es)) as (es' & ->).
      simpl. destruct (run_rows env rest w) as [[outcomes|] w'']; simpl.
      * exists (es ++ es')%list. unfold add_log, with_api; simpl.
        rewrite app_assoc. f_equal. f_equal.
        rewrite !count_cons. destruct success; unfold bump; simpl; f_equal; lia.
      * exists (es ++ es')%list. unfold add_log, with_api; simpl.
        now rewrite app_assoc.
Qed.

Lemma run_rows_length env rows :
  forall w outcomes,
    (run_rows env rows w).1 = Some outcomes -> length outcomes = length rows.
Proof.
  induction rows as [|refund rest IH]; simpl; intros w outcomes.
  - now intros [= <-].
  - destruct (create_refund env _ _ w) as [[e|[success result]] w'];
      [discriminate|].
    specialize (IH w'). destruct (run_rows env rest w') as [[os|] w''];
      simpl in *; [|discriminate].
    intros [= <-]. simpl. now rewrite (IH os).
Qed.

(** ** [process_refunds] as a whole *)

Lemma true_div_ok a b : b <> 0 -> exists x, true_div a b = inr x.
Proof.
  intros Hb. unfold true_div.
  destruct a, b; try contradiction; eauto;
    destruct (SFdiv_core_binary _ _ _ _ _ _) as [[q e] loc]; eauto.
Qed.

Lemma process_refunds_spec env csv_file_path st :
  exists entries,
    process_refunds env csv_file_path st =
      match read_csv_file env csv_file_path (started csv_file_path st) with
      | (inl e, st2) => (inl e, st2)
      | (inr rows, st2) =>
          (match (run_rows env rows (api st)).1 with
           | Some outcomes => inr (summary_of outcomes)
           | None => inl KeyboardInterrupt
           end,
           add_log (with_api st2 (run_rows env rows (api st)).2) entries)
      end.
Proof.
  unfold process_refunds.
  rewrite (bind_inr _ _ _ _ _ (logger_spec _ _ _)).
  fold (add_log st [(INFO, StartingFrom csv_file_path)]).
  fold (started csv_file_path st).
  pose proof (read_csv_file_keeps_api env csv_file_path
                (started csv_file_path st)) as Hapi.
  destruct (read_csv_file env csv_file_path (started csv_file_path st))
    as [[e|rows] st2] eqn:Hread; simpl in Hapi.
  - exists []. now rewrite (bind_inl _ _ _ _ _ Hread).
  - rewrite (bind_inr _ _ _ _ _ Hread). rewrite <- Hapi.
    destruct (decide (rows = [])) as [->|Hne].
    + eexists. simpl. rewrite (bind_inr _ _ _ _ _ (logger_spec _ _ _)).
      unfold mret, M_ret, summary_of, add_log, with_api. simpl.
      destruct st2; reflexivity.
    + assert (Hmatch : forall (a b : M state summary),
                 match rows with [] => a | _ :: _ => b end = b)
        by (destruct rows; congruence).
      rewrite Hmatch. clear Hmatch.
      destruct (refund_loop_spec env (length rows) rows 1 (0, 0) st2)
        as (es & Hloop).
      pose proof (run_rows_length env rows (api st2)) as Hlen.
      destruct (run_rows env rows (api st2)) as [[outcomes|] w] eqn:Hrun;
        cbn [fst snd] in *.
      * rewrite (bind_inr _ _ _ _ _ Hloop).
        rewrite !(bind_inr _ _ _ _ _ (logger_spec _ _ _)).
        specialize (Hlen outcomes eq_refl).
        destruct (true_div_ok (count true outcomes) (Z.of_nat (length rows)))
          as (ratio & Hratio); [destruct rows; [congruence|simpl; lia]|].
        rewrite !Z.add_0_l. rewrite Hratio.
        erewrite bind_inr by reflexivity.
        rewrite (bind_inr _ _ _ _ _ (logger_spec _ _ _)).
        eexists. unfold mret, M_ret, summary_of. rewrite Hlen.
        f_equal. unfold add_log, with_api. simpl. f_equal.
        rewrite <- !app_assoc. reflexivity.
      * exists es. now rewrite (bind_inl _ _ _ _ _ Hloop).
Qed.

(** ** Interruption is the only way out of [create_refund] and the loop *)

Lemma create_refund_interrupted env payment_id amount w r w' :
  create_refund env payment_id amount w = (inl r, w') ->
  r = KeyboardInterrupt
  /\ exists request, refund_payment env (calls w) request = Interrupted.
Proof.
  intros H. pose proof (create_refund_run env payment_id amount w) as Hrun.
  rewrite H in Hrun. simpl in Hrun.
  inversion Hrun as [|cents request event r0 Hc Hreq Hev Hcase]; subst.
  destruct (refund_payment env (calls w) _) eqn:Hev.
  - destruct Hcase as (? & ? & ? & _). discriminate.
  - discriminate.
  - inversion Hcase. split; [reflexivity|]. eauto.
Qed.

Lemma run_rows_interrupted env rows :
  forall w, (run_rows env rows w).1 = None ->
            exists history request,
              refund_payment env history request = Interrupted.
Proof.
  induction rows as [|refund rest IH]; simpl; intros w; [discriminate|].
  destruct (create_refund env _ _ w) as [[r|[success result]] w'] eqn:Hc.
  - intros _. apply create_refund_interrupted in Hc as (_ & request & H).
    eauto.
  - specialize (IH w'). destruct (run_rows env rest w') as [[os|] w''];
      simpl in *; [discriminate|]. intros _. now apply IH.
Qed.

Lemma run_rows_take env rows :
  forall w outcomes k,
    (run_rows env rows w).1 = Some outcomes ->
    (run_rows env (take k rows) w).1 = Some (take k outcomes).
Proof.
  induction rows as [|refund rest IH]; simpl; intros w outcomes k.
  - intros [= <-]. now destruct k.
  - destruct k as [|k]; [reflexivity|]. simpl.
    destruct (create_refund env _ _ w) as [[r|[success result]] w'];
      [discriminate|].
    specialize (IH w'). destruct (run_rows env rest w') as [[os|] w''];
      simpl in *; [|discriminate].
    intros [= <-]. specialize (IH os k eq_refl).
    destruct (run_rows env (take k rest) w') as [o w3]. simpl in *.
    now rewrite IH.
Qed.

Lemma count_snoc b outcomes success :
  count b (outcomes ++ [success])
  = count b outcomes + (if Bool.eqb success b then 1 else 0).
Proof.
  induction outcomes as [|o outcomes IH]; simpl app.
  - rewrite count_cons. unfold count. simpl. lia.
  - rewrite !count_cons, IH. lia.
Qed.

Lemma summary_of_invariant outcomes :
  total (summary_of outcomes)
  = successful (summary_of outcomes) + failed (summary_of outcomes)
  /\ 0 <= successful (summary_of outcomes)
  /\ 0 <= failed (summary_of outcomes).
Proof.
  unfold summary_of; simpl. rewrite count_total.
  split; [reflexivity|]. split; apply count_nonneg.
Qed.

Lemma uninterrupted_ret {A} (a : A) : uninterrupted (mret a).
Proof. intros s r s' [= <- _]. discriminate. Qed.

Lemma uninterrupted_raise {A} e : uninterrupted (raise e : M state A).
Proof. intros s r s' [= <- _]. discriminate. Qed.

Lemma uninterrupted_of_result {A} (x : py_exception + A) :
  uninterrupted (of_result x).
Proof. destruct x; [apply uninterrupted_raise|apply uninterrupted_ret]. Qed.

Lemma uninterrupted_logger lv m : uninterrupted (logger lv m).
Proof. intros s r s' [= <- _]. discriminate. Qed.

Lemma uninterrupted_bind {A B} (m : M state A) (k : A -> M state B) :
  uninterrupted m -> (forall a, uninterrupted (k a)) -> uninterrupted (m ≫= k).
Proof.
  intros Hm Hk s r s'. unfold mbind, M_bind.
  destruct (m s) as [[e|a] s1] eqn:Hms.
  - intros [= <- _] [= ->]. now destruct (Hm _ _ _ Hms).
  - apply Hk.
Qed.

Lemma uninterrupted_try_except {A} (m : M state A) h :
  uninterrupted m -> (forall e, uninterrupted (h e)) ->
  uninterrupted (try_except m h).
Proof.
  intros Hm Hh s r s'. unfold try_except.
  destruct (m s) as [[[e|]|a] s1] eqn:Hms.
  - apply Hh.
  - now destruct (Hm _ _ _ Hms).
  - intros [= <- _]. discriminate.
Qed.

Ltac uninterrupted_tac :=
  repeat first
    [ apply uninterrupted_ret | apply uninterrupted_raise
    | apply uninterrupted_of_result | apply uninterrupted_logger
    | apply uninterrupted_bind; [|intros ?]
    | apply uninterrupted_try_except; [|intros ?]
    | match goal with
      | |- uninterrupted (if ?b then _ else _) => destruct b
      | |- uninterrupted (match ?x with _ => _ end) => destruct x
      end ].

Lemma read_rows_uninterrupted fieldnames broken rows :
  forall row_num refund_data,
    uninterrupted (read_rows fieldnames broken row_num rows refund_data).
Proof.
  induction rows as [|fields rest IH]; intros row_num refund_data; simpl.
  - destruct broken; uninterrupted_tac.
  - destruct fields as [|f fs]; [apply IH|].
    uninterrupted_tac; apply IH.
Qed.

Lemma read_csv_file_uninterrupted env csv_file_path :
  uninterrupted (read_csv_file env csv_file_path).
Proof.
  unfold read_csv_file, read_csv_body.
  apply uninterrupted_bind; [|intros ?; uninterrupted_tac].
  apply uninterrupted_try_except; [|intros ?; uninterrupted_tac].
  destruct (open_csv env csv_file_path); [uninterrupted_tac|].
  match goal with |- uninterrupted (if ?b then _ else _) => destruct b end.
  - uninterrupted_tac.
  - apply uninterrupted_bind; [uninterrupted_tac|]. intros _.
    apply read_rows_uninterrupted.
Qed.

(** ** The summary *)

(** C2: whatever the file and the collaborator, [process_refunds] either
    returns a summary, or the load raised, or the user interrupted a call.
    A returned summary has [total = successful + failed] with both counters
    non-negative, and the same holds of the loop's counters after every row:
    after the first [k] rows they add up to [k], and row [k + 1] adds one
    to exactly one of them. *)
Theorem summary_invariant env csv_file_path st :
  match process_refunds env csv_file_path st with
  | (inr s, _) =>
      (total s = successful s + failed s
       /\ 0 <= successful s /\ 0 <= failed s)
      /\ exists rows st2,
          read_csv_file env csv_file_path (started csv_file_path st)
          = (inr rows, st2)
          /\ total s = Z.of_nat (length rows)
          /\ forall k, (k < length rows)%nat ->
               exists c c' stk stk',
                 refund_loop env (length rows) 1 (take k rows) (0, 0) st2
                 = (inr c, stk)
                 /\ refund_loop env (length rows) 1 (take (S k) rows) (0, 0) st2
                    = (inr c', stk')
                 /\ c.1 + c.2 = Z.of_nat k /\ 0 <= c.1 /\ 0 <= c.2
                 /\ c'.1 + c'.2 = Z.of_nat (S k)
                 /\ (c' = (c.1 + 1, c.2) \/ c' = (c.1, c.2 + 1))
  | (inl KeyboardInterrupt, _) =>
      exists history request,
        refund_payment env history request = Interrupted
  | (inl (Exc e), st') =>
      read_csv_file env csv_file_path (started csv_file_path st)
      = (inl (Exc e), st')
  end.
Proof.
  destruct (process_refunds_spec env csv_file_path st) as (entries & ->).
  pose proof (read_csv_file_keeps_api env csv_file_path
                (started csv_file_path st)) as Hapi.
  destruct (read_csv_file env csv_file_path (started csv_file_path st))
    as [[[e|]|rows] st2] eqn:Hread; simpl in Hapi.
  - reflexivity.
  - now destruct (read_csv_file_uninterrupted env csv_file_path _ _ _ Hread).
  - destruct (run_rows env rows (api st)) as [[outcomes|] w] eqn:Hrun;
      cbn [fst snd].
    + split; [apply summary_of_invariant|].
      exists rows, st2. split; [reflexivity|].
      pose proof (run_rows_length env rows (api st) outcomes) as Hlen.
      rewrite Hrun in Hlen. specialize (Hlen eq_refl).
      split; [simpl; now rewrite Hlen|].
      intros k Hk.
      destruct (refund_loop_spec env (length rows) (take k rows) 1 (0, 0) st2)
        as (es & Hk1).
      destruct (refund_loop_spec env (length rows) (take (S k) rows) 1 (0, 0)
                  st2) as (es' & Hk2).
      rewrite Hapi in Hk1, Hk2.
      pose proof (run_rows_take env rows (api st) outcomes k) as Ht1.
      pose proof (run_rows_take env rows (api st) outcomes (S k)) as Ht2.
      rewrite Hrun in Ht1, Ht2.
      specialize (Ht1 eq_refl). specialize (Ht2 eq_refl).
      rewrite Ht1 in Hk1. rewrite Ht2 in Hk2.
      do 4 eexists. split; [exact Hk1|]. split; [exact Hk2|].
      cbn [fst snd]. rewrite !Z.add_0_l.
      destruct (lookup_lt_is_Some_2 outcomes k) as [b Hb]; [lia|].
      rewrite (take_S_r _ _ _ Hb), !count_snoc.
      pose proof (count_total (take k outcomes)) as Htot.
      rewrite length_take in Htot.
      pose proof (count_nonneg true (take k outcomes)).
      pose proof (count_nonneg false (take k outcomes)).
      destruct b; simpl; repeat split; try lia;
        [left|right]; f_equal; lia.
    + eapply run_rows_interrupted. now rewrite Hrun.
Qed.

(** The run of [two_rows] returns a summary, and it adds up. *)
Lemma summary_invariant_witness :
  exists s st',
    process_refunds two_rows "refunds.csv" initial_state = (inr s, st')
    /\ total s = successful s + failed s
    /\ total s = 2.
Proof.
  pose proof (summary_invariant two_rows "refunds.csv" initial_state) as H.
  destruct (process_refunds two_rows "refunds.csv" initial_state)
    as [[[e|]|s] st'] eqn:Hp.
  - vm_compute in Hp. discriminate.
  - vm_compute in Hp. discriminate.
  - destruct H as ((Htotal & _) & _). exists s, st'.
    split; [reflexivity|]. split; [exact Htotal|].
    vm_compute in Hp. now inversion Hp.
Defined.

(** ** [create_refund] returns, whatever the collaborator does *)

(** C10: when the collaborator returns a result object, whatever it holds,
    or raises an exception, whichever it is, [create_refund] returns a pair
    of a boolean and a dict and raises nothing; and the dict of every
    failure holds the payment id and the amount it was called with. *)
Theorem create_refund_total env payment_id amount w :
  (forall request, refund_payment env (calls w) request <> Interrupted) ->
  exists success result w',
    create_refund env payment_id amount w = (inr (success, result), w')
    /\ (success = false ->
        dict_get result "payment_id" = Some (PStr payment_id)
        /\ dict_get result "amount" = Some (PFloat amount)).
Proof.
  intros Hquiet.
  pose proof (create_refund_run env payment_id amount w) as Hrun.
  destruct (create_refund env payment_id amount w) as [r w'].
  simpl in Hrun.
  inversion Hrun as [e He|cents request event r0 Hc Hreq Hev Hcase]; subst.
  - exists false, (exception_result e payment_id amount), w'.
    split; [reflexivity|]. intros _. split; reflexivity.
  - specialize (Hquiet
      (refund_request_body (uuid4 env (uuids_drawn w)) cents payment_id)).
    destruct (refund_payment env (calls w) _) as [response|e|].
    + destruct Hcase as (success & result & -> & _ & _ & Hf).
      exists success, result. eexists. split; [reflexivity|exact Hf].
    + subst r. exists false, (exception_result e payment_id amount).
      eexists. split; [reflexivity|]. intros _. split; reflexivity.
    + contradiction.
Qed.

(** A collaborator that raises an [APIException]. *)
Lemma create_refund_total_witness :
  exists success result w',
    create_refund raising "PAY_1" (PyFloat.of_Z 5) (api initial_state)
    = (inr (success, result), w')
    /\ (success = false ->
        dict_get result "payment_id" = Some (PStr "PAY_1")
        /\ dict_get result "amount" = Some (PFloat (PyFloat.of_Z 5))).
Proof.
  apply (create_refund_total raising "PAY_1" (PyFloat.of_Z 5)
           (api initial_state)).
  intros request. discriminate.
Defined.

(** ** Two rows, the first of which fails *)

Lemma create_refund_success_calls env payment_id amount w result w' :
  create_refund env payment_id amount w = (inr (true, result), w') ->
  exists amount_cents,
    PyFloat.to_int (PyFloat.mul amount (PyFloat.of_Z 100)) = inr amount_cents
    /\ w' = {| uuids_drawn := S (uuids_drawn w);
               calls := calls w ++
                 [refund_request_body (uuid4 env (uuids_drawn w)) amount_cents
                    payment_id] |}
    /\ exists response,
        refund_payment env (calls w)
          (refund_request_body (uuid4 env (uuids_drawn w)) amount_cents
             payment_id) = Returns response
        /\ is_success response = true.
Proof.
  intros H. pose proof (create_refund_run env payment_id amount w) as Hrun.
  rewrite H in Hrun. simpl in Hrun.
  inversion Hrun as [e He|cents request event r0 Hc Hreq Hev Hcase]; subst.
  exists cents. split; [assumption|]. split; [reflexivity|].
  destruct (refund_payment env (calls w) _) as [response|e|].
  - destruct Hcase as (success & res & [= <- <-] & _ & Hs & _).
    exists response. split; [reflexivity|now apply Hs].
  - discriminate.
  - discriminate.
Qed.

(** C1: a row that fails adds one to [failed], leaves [successful] as it
    was, and the loop goes on with the rows after it; with two loaded rows
    of which the first fails and the second succeeds the summary is
    total 2, successful 1, failed 1 and the collaborator was called for the
    second row; an exception raised anywhere in the call path becomes a
    failure whose category is 'API Exception' for an [APIException] and
    'Unexpected Error' for any other, and is not raised further. *)
Theorem failure_isolation env :
  (forall n i refund rest counters st result w1,
      create_refund env (payment_id refund) (amount refund) (api st)
      = (inr (false, result), w1) ->
      exists st1,
        api st1 = w1
        /\ refund_loop env n i (refund :: rest) counters st
           = refund_loop env n (S i) rest (counters.1, counters.2 + 1) st1)
  /\ (forall csv_file_path st st2 A B resultA w1 resultB w2,
         read_csv_file env csv_file_path (started csv_file_path st)
         = (inr [A; B], st2) ->
         create_refund env (payment_id A) (amount A) (api st)
         = (inr (false, resultA), w1) ->
         create_refund env (payment_id B) (amount B) w1
         = (inr (true, resultB), w2) ->
         (exists st',
             process_refunds env csv_file_path st
             = (inr {| total := 2; successful := 1; failed := 1 |}, st')
             /\ api st' = w2)
         /\ exists amount_cents,
             calls w2 = (calls w1 ++
               [refund_request_body (uuid4 env (uuids_drawn w1)) amount_cents
                  (payment_id B)])%list)
  /\ (forall payment_id amount w e w',
         create_refund_body env payment_id amount w = (inl (Exc e), w') ->
         create_refund env payment_id amount w
         = (inr (false, exception_result e payment_id amount), w')
         /\ dict_get (exception_result e payment_id amount) "error"
            = Some (PStr (if is_APIException e then "API Exception"
                          else "Unexpected Error"))
         /\ "API Exception" <> "Unexpected Error")
  /\ (forall payment_id amount w e w',
         create_refund env payment_id amount w <> (inl (Exc e), w')).
Proof.
  split; [|split; [|split; [|apply create_refund_never_raises]]].
  - intros n i refund rest counters st result w1 Hc.
    destruct (refund_step_spec env n i refund counters st) as (es & Hstep).
    rewrite Hc in Hstep. simpl in Hstep.
    exists (add_log (with_api st w1) es). split; [reflexivity|].
    simpl. now rewrite (bind_inr _ _ _ _ _ Hstep).
  - intros csv_file_path st st2 A B resultA w1 resultB w2 Hread HA HB.
    split.
    + destruct (process_refunds_spec env csv_file_path st) as (es & ->).
      rewrite Hread. simpl. rewrite HA, HB. simpl.
      eexists. split; reflexivity.
    + apply create_refund_success_calls in HB as (cents & _ & -> & _).
      now exists cents.
  - intros payment_id amount w e w' H.
    split; [now apply create_refund_catches|]. split; [reflexivity|].
    discriminate.
Qed.

(** The run of [two_rows]: the refund of PAY_A is declined, that of PAY_B
    goes through, and the last call made is the one for PAY_B. *)
Lemma failure_isolation_witness :
  exists st',
    process_refunds two_rows "refunds.csv" initial_state
    = (inr {| total := 2; successful := 1; failed := 1 |}, st')
    /\ exists request,
        last (calls (api st')) = Some request
        /\ py_item request "payment_id" = inr (PStr "PAY_B").
Proof.
  edestruct (proj1 (proj2 (failure_isolation two_rows))
               "refunds.csv" initial_state) as [(st' & Hp & Hw) _].
  - vm_compute. reflexivity.
  - vm_compute. reflexivity.
  - vm_compute. reflexivity.
  - exists st'. split; [exact Hp|]. rewrite Hw. eexists.
    split; vm_compute; reflexivity.
Defined.

(** ** The exit code *)

Lemma init_processor_keeps_api env : keeps_api (init_processor env).
Proof. unfold init_processor. destruct (startup_error env); keeps_api_tac. Qed.

Lemma init_processor_uninterrupted env : uninterrupted (init_processor env).
Proof.
  unfold init_processor. destruct (startup_error env); uninterrupted_tac.
Qed.

Lemma failed_positive outcomes :
  (count false outcomes >? 0) = negb (forallb id outcomes).
Proof.
  induction outcomes as [|[] outcomes IH].
  - reflexivity.
  - rewrite count_cons. simpl. exact IH.
  - rewrite count_cons. simpl. pose proof (count_nonneg false outcomes).
    apply Z.gtb_lt. lia.
Qed.

(** C5: the argument of [sys.exit] is 0 when every processed row succeeded
    (also when there was no row), and 1 when at least one row failed, when
    [read_csv_file] raised (file not found, missing column, any other
    error), and when the user interrupted. *)
Theorem exit_codes env csv st0 :
  (main env csv st0).1 = exit_code_contract env csv st0.
Proof.
  unfold main, exit_code_contract.
  pose proof (init_processor_keeps_api env st0) as Hapi.
  destruct (init_processor env st0) as [[r|[]] st] eqn:Hinit; simpl in Hapi.
  - rewrite (bind_inl _ _ _ _ _ Hinit). now destruct r.
  - rewrite (bind_inr _ _ _ _ _ Hinit).
    destruct (process_refunds_spec env csv st) as (es & ->).
    rewrite Hapi.
    destruct (read_csv_file env csv (started csv st)) as [[r|rows] st2].
    + now destruct r.
    + destruct (run_rows env rows (api st0)) as [[outcomes|] w]; simpl.
      * rewrite failed_positive. now destruct (forallb id outcomes).
      * reflexivity.
Qed.

(** One declined refund exits 1, two refunds that went through exit 0. *)
Lemma exit_codes_witness :
  (main two_rows "refunds.csv" initial_state).1 = 1
  /\ (main same_token "refunds.csv" initial_state).1 = 0.
Proof.
  rewrite (exit_codes two_rows "refunds.csv" initial_state).
  rewrite (exit_codes same_token "refunds.csv" initial_state).
  split; vm_compute; reflexivity.
Defined.

(** The exit codes of sample runs. *)
Lemma exit_code_examples :
  (* the file is not there *)
  (main (world (Fails (FileNotFoundError "No such file or directory"))
           sample_uuid (fun _ _ => Returns ok_response))
     "refunds.csv" initial_state).1 = 1
  (* a required column is missing *)
  /\ (main wrong_case "refunds.csv" initial_state).1 = 1
  (* the user interrupts the first call *)
  /\ (main (world (Table (Some header) [["PAY_1"; "10.50"]] None)
              sample_uuid (fun _ _ => Interrupted))
        "refunds.csv" initial_state).1 = 1
  (* one of two rows fails *)
  /\ (main two_rows "refunds.csv" initial_state).1 = 1
  (* both rows succeed *)
  /\ (main same_token "refunds.csv" initial_state).1 = 0
  (* no row at all *)
  /\ (main raising "refunds.csv" initial_state).1 = 0.
Proof. repeat split; vm_compute; reflexivity. Qed.

(** C6: when the loader hands back no row, [process_refunds] returns the
    all-zero summary, logs only its warning (no success rate), draws no
    token and calls nobody, and [main] exits 0; and whenever the load
    succeeds, with rows or without, [process_refunds] raises no exception,
    so the division of [successful] by [total] is not reached with a zero
    [total]. *)
Theorem no_rows_no_division env csv st :
  (forall st2,
      read_csv_file env csv (started csv st) = (inr [], st2) ->
      process_refunds env csv st
      = (inr {| total := 0; successful := 0; failed := 0 |},
         add_log st2
           [(WARNING, Literal "No valid refund data found in CSV")])
      /\ api (add_log st2
                [(WARNING, Literal "No valid refund data found in CSV")])
         = api st
      /\ forall st0, init_processor env st0 = (inr tt, st) ->
                     (main env csv st0).1 = 0)
  /\ (forall rows st2,
         read_csv_file env csv (started csv st) = (inr rows, st2) ->
         forall e st', process_refunds env csv st <> (inl (Exc e), st'))
  /\ (forall a x, true_div a 0 <> inr x).
Proof.
  split; [|split].
  - intros st2 Hread.
    assert (Hp : process_refunds env csv st
                 = (inr {| total := 0; successful := 0; failed := 0 |},
                    add_log st2
                      [(WARNING,
                        Literal "No valid refund data found in CSV")])).
    { unfold process_refunds.
      rewrite (bind_inr _ _ _ _ _ (logger_spec _ _ _)).
      fold (add_log st [(INFO, StartingFrom csv)]). fold (started csv st).
      rewrite (bind_inr _ _ _ _ _ Hread). reflexivity. }
    split; [exact Hp|]. split.
    + pose proof (read_csv_file_keeps_api env csv (started csv st)) as Hapi.
      rewrite Hread in Hapi. exact Hapi.
    + intros st0 Hinit. unfold main.
      rewrite (bind_inr _ _ _ _ _ Hinit), Hp. reflexivity.
  - intros rows st2 Hread e st'.
    destruct (process_refunds_spec env csv st) as (es & ->).
    rewrite Hread. destruct (run_rows env rows (api st)).1; discriminate.
  - intros a x. unfold true_div. destruct a; discriminate.
Qed.

(** A file with a header and no data row. *)
Lemma no_rows_no_division_witness :
  process_refunds raising "refunds.csv" initial_state
  = (inr {| total := 0; successful := 0; failed := 0 |},
     (process_refunds raising "refunds.csv" initial_state).2)
  /\ calls (api (process_refunds raising "refunds.csv" initial_state).2) = []
  /\ (main raising "refunds.csv" initial_state).1 = 0.
Proof.
  edestruct (proj1 (no_rows_no_division raising "refunds.csv"
                      (init_processor raising initial_state).2))
    as (Hp & Hapi & Hmain).
  - vm_compute. reflexivity.
  - split; [|split].
    + vm_compute. reflexivity.
    + vm_compute. reflexivity.
    + apply Hmain. reflexivity.
Defined.

(** ** The loader: the header *)

Lemma required_columns_subset (names : list string) :
  required_columns ⊆ list_to_set (C := gset string) names
  <-> "payment_id" ∈ names /\ "amount" ∈ names.
Proof.
  unfold required_columns. split.
  - intros H.
    split; apply (proj1 (elem_of_list_to_set (C := gset string) _ _)), H.
    + apply elem_of_union_l. now apply elem_of_singleton.
    + apply elem_of_union_r. now apply elem_of_singleton.
  - intros [Hp Ha] x Hx.
    apply (proj2 (elem_of_list_to_set (C := gset string) _ _)).
    apply elem_of_union in Hx as [Hx|Hx]; apply elem_of_singleton in Hx;
      now subst.
Qed.



(** ** The loader: rows shorter than the header *)

Lemma restval_lookup (l : list string) :
  forall (d : gmap string (option string)) k,
    fold_left (fun d k => <[k := None]> d) l d !! k
    = if bool_decide (k ∈ l) then Some None else d !! k.
Proof.
  induction l as [|a l IH]; intros d k; simpl.
  - reflexivity.
  - rewrite IH. destruct (decide (k = a)) as [->|Hne].
    + rewrite lookup_insert_eq.
      rewrite (bool_decide_eq_true_2 (a ∈ a :: l)) by set_solver.
      now destruct (bool_decide (a ∈ l)).
    + rewrite lookup_insert_ne by congruence.
      destruct (decide (k ∈ l)) as [Hin|Hnin].
      * rewrite !bool_decide_eq_true_2 by set_solver. reflexivity.
      * rewrite (bool_decide_eq_false_2 (k ∈ a :: l)).
        -- now rewrite bool_decide_eq_false_2.
        -- intros [?|?]%elem_of_cons; contradiction.
Qed.

Lemma short_row_strip fieldnames fields k :
  k ∈ drop (length fields) fieldnames ->
  row_strip (dict_row fieldnames fields) k
  = inl (AttributeError "'NoneType' object has no attribute 'strip'").
Proof.
  intros Hin. unfold row_strip, dict_row.
  rewrite restval_lookup. now rewrite bool_decide_eq_true_2.
Qed.

Lemma read_rows_short fieldnames broken before fields after :
  fields <> [] ->
  "payment_id" ∈ drop (length fields) fieldnames
  \/ "amount" ∈ drop (length fields) fieldnames ->
  forall row_num refund_data st,
  exists e st',
    read_rows fieldnames broken row_num (before ++ fields :: after)
      refund_data st = (inl (Exc e), st').
Proof.
  intros Hne Hshort.
  induction before as [|b before IH]; intros row_num refund_data st; simpl.
  - destruct fields as [|f fs]; [contradiction|].
    unfold mbind, M_bind.
    destruct Hshort as [Hp|Ha].
    + rewrite (short_row_strip _ _ _ Hp). simpl. eauto.
    + rewrite (short_row_strip _ _ _ Ha).
      destruct (row_strip _ "payment_id"); simpl; eauto.
  - destruct b as [|f fs]; [apply IH|].
    unfold mbind, M_bind.
    destruct (row_strip _ "payment_id"); simpl; eauto.
    destruct (row_strip _ "amount"); simpl; eauto.
    destruct (String.eqb _ ""); [apply IH|].
    destruct (PyFloat.of_string _); [apply IH|].
    destruct (PyFloat.leb _ _); apply IH.
Qed.

Lemma zip_fold_other (l : list (string * string)) :
  forall (d : gmap string (option string)) k,
    k ∉ l.*1 ->
    fold_left (fun d kv => <[kv.1 := Some kv.2]> d) l d !! k = d !! k.
Proof.
  induction l as [|[a v] l IH]; intros d k Hk; simpl; [reflexivity|].
  rewrite fmap_cons in Hk. apply not_elem_of_cons in Hk as [Hne Hk].
  rewrite IH by assumption. apply lookup_insert_ne. simpl in *. congruence.
Qed.

Lemma zip_fold_in (l : list (string * string)) :
  forall (d : gmap string (option string)) k,
    k ∈ l.*1 ->
    exists v, fold_left (fun d kv => <[kv.1 := Some kv.2]> d) l d !! k
              = Some (Some v).
Proof.
  induction l as [|[a v] l IH]; intros d k Hk; simpl.
  - now apply elem_of_nil in Hk.
  - destruct (decide (k ∈ l.*1)) as [Hin|Hnin]; [now apply IH|].
    rewrite zip_fold_other by assumption.
    rewrite fmap_cons in Hk.
    apply elem_of_cons in Hk as [->|Hk]; [|contradiction]. simpl.
    exists v. apply lookup_insert_eq.
Qed.

Lemma fst_zip_take (names fields : list string) :
  (zip names fields).*1 = take (length fields) names.
Proof.
  revert fields. induction names as [|n names IH]; intros [|f fields]; simpl;
    try reflexivity.
  now rewrite IH.
Qed.

(** A column of the header is never missing from the row's dict: the row
    has a field for it, or it holds [None]. *)
Lemma row_strip_cases names fields k :
  k ∈ names ->
  (exists s, row_strip (dict_row names fields) k = inr s)
  \/ row_strip (dict_row names fields) k
     = inl (AttributeError "'NoneType' object has no attribute 'strip'").
Proof.
  intros Hk. destruct (decide (k ∈ drop (length fields) names)) as [Hd|Hd].
  - right. now apply short_row_strip.
  - left. unfold row_strip, dict_row. rewrite restval_lookup.
    rewrite bool_decide_eq_false_2 by assumption.
    destruct (zip_fold_in (zip names fields) ∅ k) as (v & ->); [|eauto].
    rewrite fst_zip_take.
    rewrite <- (take_drop (length fields) names) in Hk.
    apply elem_of_app in Hk as [Hk|Hk]; [assumption|contradiction].
Qed.

(** C9: when a row that is not blank has fewer fields than the header, so
    that 'payment_id' or 'amount' is one of the columns it has no field
    for, [read_csv_file] raises: no list of requests comes back, whatever
    rows stand before and after; [process_refunds] raises the same
    exception and not one refund call is made. When the short row is the
    first data row the exception is the [AttributeError] of calling
    [strip] on [None]. *)
Theorem short_row_aborts env csv st names before fields after broken :
  open_csv env csv = Table (Some names) (before ++ fields :: after) broken ->
  "payment_id" ∈ names -> "amount" ∈ names ->
  fields <> [] ->
  "payment_id" ∈ drop (length fields) names
  \/ "amount" ∈ drop (length fields) names ->
  exists e st',
    read_csv_file env csv (started csv st) = (inl (Exc e), st')
    /\ process_refunds env csv st = (inl (Exc e), st')
    /\ api st' = api st
    /\ (before = [] ->
        e = AttributeError "'NoneType' object has no attribute 'strip'").
Proof.
  intros Hopen Hp Ha Hne Hshort.
  assert (Hcond : negb (truthy (Some names))
                  || negb (bool_decide
                             (required_columns ⊆ list_to_set names))
                  = false).
  { apply orb_false_iff. split.
    - destruct names; [now apply elem_of_nil in Hp|reflexivity].
    - apply negb_false_iff, bool_decide_eq_true_2.
      now apply required_columns_subset. }
  assert (Hbody : forall s, exists e s',
             read_csv_body env csv s = (inl (Exc e), s')
             /\ (before = [] ->
                 e = AttributeError
                       "'NoneType' object has no attribute 'strip'")).
  { intros s. unfold read_csv_body. rewrite Hopen. cbv zeta.
    change (default [] (Some names)) with names.
    rewrite Hcond. rewrite (bind_inr _ _ _ _ _ (logger_spec _ _ _)).
    destruct (read_rows_short names broken before fields after Hne Hshort 2%nat
                [] (add_log s [(INFO, CsvColumnsFound names)]))
      as (e & s' & Hrows).
    exists e, s'. split; [exact Hrows|].
    intros ->. simpl in Hrows.
    destruct fields as [|f fs]; [contradiction|].
    unfold mbind, M_bind in Hrows.
    destruct (row_strip_cases names (f :: fs) "payment_id" Hp)
      as [(p & Hrs)|Hrs]; rewrite Hrs in Hrows; simpl in Hrows;
      [|congruence].
    destruct Hshort as [Hs|Hs].
    - rewrite (short_row_strip _ _ _ Hs) in Hrs. discriminate.
    - rewrite (short_row_strip _ _ _ Hs) in Hrows. simpl in Hrows.
      congruence. }
  destruct (Hbody (started csv st)) as (e & s' & Hb & He).
  assert (Hhandler : exists st',
             read_csv_file env csv (started csv st) = (inl (Exc e), st')).
  { unfold read_csv_file.
    rewrite (bind_inl _ _ _ (Exc e)
               (match e with
                | FileNotFoundError _ => add_log s' [(ERROR, CsvNotFound csv)]
                | _ => add_log s' [(ERROR, ErrorReadingCsv (exn_str e))]
                end)); [eauto|].
    rewrite (try_except_exc _ _ _ _ _ Hb).
    destruct e; rewrite (bind_inr _ _ _ _ _ (logger_spec _ _ _));
      reflexivity. }
  destruct Hhandler as (st' & Hread).
  exists e, st'. split; [exact Hread|]. split; [|split; [|exact He]].
  - unfold process_refunds.
    rewrite (bind_inr _ _ _ _ _ (logger_spec _ _ _)).
    fold (add_log st [(INFO, StartingFrom csv)]). fold (started csv st).
    now rewrite (bind_inl _ _ _ _ _ Hread).
  - pose proof (read_csv_file_keeps_api env csv (started csv st)) as Hapi.
    now rewrite Hread in Hapi.
Qed.

(** The short row stands between two valid rows. *)
Lemma short_row_aborts_witness :
  exists e st',
    process_refunds short_row "refunds.csv" initial_state
    = (inl (Exc e), st')
    /\ api st' = api initial_state.
Proof.
  destruct (short_row_aborts short_row "refunds.csv" initial_state header
              [["PAY_1"; "10.50"]] ["PAY_2"] [["PAY_3"; "7.25"]] None)
    as (e & st' & _ & Hp & Hapi & _).
  - reflexivity.
  - unfold header. set_solver.
  - unfold header. set_solver.
  - discriminate.
  - right. simpl. set_solver.
  - exists e, st'. split; [exact Hp|exact Hapi].
Defined.

(** ** Dollars to cents *)

Lemma of_Z_100 : PyFloat.of_Z 100 = S754_finite false 7036874417766400 (-46).
Proof. reflexivity. Qed.

Lemma binary_round_aux_sign prec emax sx mx ex lx :
  match binary_round_aux prec emax sx mx ex lx with
  | S754_zero s | S754_infinity s | S754_finite s _ _ => s = sx
  | S754_nan => True
  end.
Proof.
  unfold binary_round_aux.
  destruct (shr_fexp prec emax mx ex lx) as [mrs' e'].
  destruct (shr_fexp prec emax _ e' loc_Exact) as [mrs'' e''].
  destruct (shr_m mrs''); try easy.
  now destruct (e'' <=? emax - prec)%Z.
Qed.

(** A validated amount is one the loader's test [amount <= 0] let
    through. When its product with 100 is finite, the product is not
    negative. *)
Lemma validated_product amount :
  PyFloat.leb amount PyFloat.zero = false ->
  PyFloat.is_finite (PyFloat.mul amount (PyFloat.of_Z 100)) = true ->
  match PyFloat.mul amount (PyFloat.of_Z 100) with
  | S754_zero _ => True
  | S754_finite s _ _ => s = false
  | _ => False
  end.
Proof.
  rewrite of_Z_100. intros Hle Hfin.
  destruct amount as [s|s| |s m e]; simpl in *; try discriminate.
  destruct s; [discriminate|].
  unfold PyFloat.mul, SFmul in *. simpl xorb in *.
  pose proof (binary_round_aux_sign PyFloat.prec PyFloat.emax false
                (Z.pos (m * 7036874417766400)) (e + -46) loc_Exact) as Hs.
  destruct (binary_round_aux _ _ _ _ _ _); try easy.
Qed.

Lemma to_int_floor m e :
  PyFloat.to_int (S754_finite false m e)
  = inr (Qfloor (PyFloat.to_Q (S754_finite false m e))).
Proof.
  unfold PyFloat.to_int, PyFloat.to_Q. destruct e as [|p|p].
  - now rewrite Qfloor_Z.
  - now rewrite Qfloor_Z.
  - unfold Qfloor. now rewrite Pos2Z.inj_pow.
Qed.

(** C7, as the code has it: for a validated amount whose product with 100
    (in binary64) is finite, the refund call is made with the product
    truncated to an integer as its amount and 'USD' as its currency; the
    integer is never above the product and less than one below it. *)
Theorem minor_units env payment_id amount w :
  PyFloat.leb amount PyFloat.zero = false ->
  PyFloat.is_finite (PyFloat.mul amount (PyFloat.of_Z 100)) = true ->
  exists amount_cents,
    PyFloat.to_int (PyFloat.mul amount (PyFloat.of_Z 100)) = inr amount_cents
    /\ sends env payment_id amount w amount_cents
    /\ py_item (refund_request_body (uuid4 env (uuids_drawn w)) amount_cents
                  payment_id) "amount_money"
       = inr (PDict [ ("amount", PInt amount_cents);
                      ("currency", PStr "USD") ])
    /\ amount_cents
       = Qfloor (PyFloat.to_Q (PyFloat.mul amount (PyFloat.of_Z 100)))
    /\ (inject_Z amount_cents
        <= PyFloat.to_Q (PyFloat.mul amount (PyFloat.of_Z 100)))%Q
    /\ (PyFloat.to_Q (PyFloat.mul amount (PyFloat.of_Z 100))
        < inject_Z (amount_cents + 1))%Q.
Proof.
  intros Hle Hfin.
  pose proof (validated_product amount Hle Hfin) as Hsign.
  set (p := PyFloat.mul amount (PyFloat.of_Z 100)) in *.
  assert (Hint : PyFloat.to_int p = inr (Qfloor (PyFloat.to_Q p))).
  { destruct p as [s|s| |s m e]; try easy. subst s. apply to_int_floor. }
  exists (Qfloor (PyFloat.to_Q p)).
  split; [exact Hint|]. split; [|split; [reflexivity|split; [reflexivity|]]].
  - unfold sends.
    pose proof (create_refund_run env payment_id amount w) as Hrun.
    inversion Hrun as [e He|cents request event r0 Hc Hreq Hev Hcase Hr Hw].
    + fold p in He. congruence.
    + fold p in Hc. rewrite Hint in Hc. inversion Hc; subst cents.
      simpl. now subst request.
  - split; [apply Qfloor_le|apply Qlt_floor].
Qed.

(** 10.005 dollars are 1000 cents. *)
Lemma minor_units_witness :
  PyFloat.of_string "10.005" = inr ten_005
  /\ exists amount_cents,
      PyFloat.to_int (PyFloat.mul ten_005 (PyFloat.of_Z 100))
      = inr amount_cents
      /\ amount_cents = 1000
      /\ sends raising "PAY_1" ten_005 (api initial_state) amount_cents.
Proof.
  split; [vm_compute; reflexivity|].
  destruct (minor_units raising "PAY_1" ten_005 (api initial_state))
    as (c & Hint & Hs & _).
  - reflexivity.
  - reflexivity.
  - exists c. split; [exact Hint|]. split; [|exact Hs].
    vm_compute in Hint. now inversion Hint.
Defined.

(** C7 as stated fails at the amount 1e308: the loader lets it through,
    its product with 100 is infinite, [int] raises, and [create_refund]
    returns an 'Unexpected Error' failure without having built a call. *)
Lemma overflowing_amount_sends_nothing :
  PyFloat.of_string "1e308" = inr huge
  /\ PyFloat.leb huge PyFloat.zero = false
  /\ create_refund raising "PAY_1" huge (api initial_state)
     = (inr (false,
             exception_result
               (OverflowError "cannot convert float infinity to integer")
               "PAY_1" huge),
        api initial_state)
  /\ ~ (forall env payment_id amount w,
           PyFloat.leb amount PyFloat.zero = false ->
           exists amount_cents, sends env payment_id amount w amount_cents).
Proof.
  split; [vm_compute; reflexivity|]. split; [reflexivity|].
  split; [vm_compute; reflexivity|].
  intros H.
  destruct (H raising "PAY_1" huge (api initial_state) eq_refl) as (c & Hc).
  unfold sends in Hc. vm_compute in Hc. discriminate.
Qed.

(** ** Idempotency tokens *)

Lemma create_refund_draws env payment_id amount w :
  drawn_in_order env w ->
  drawn_in_order env (create_refund env payment_id amount w).2.
Proof.
  intros Hw. pose proof (create_refund_run env payment_id amount w) as Hrun.
  destruct (create_refund env payment_id amount w) as [r w']. simpl in *.
  inversion Hrun as [e He|cents request event r0 Hc Hreq Hev Hcase]; subst.
  - exact Hw.
  - unfold drawn_in_order in *. cbn [calls uuids_drawn].
    rewrite map_app, seq_S, map_app, Hw. reflexivity.
Qed.

Lemma run_rows_draws env rows :
  forall w, drawn_in_order env w -> drawn_in_order env (run_rows env rows w).2.
Proof.
  induction rows as [|refund rest IH]; simpl; intros w Hw; [exact Hw|].
  pose proof (create_refund_draws env (payment_id refund) (amount refund) w Hw)
    as Hc.
  destruct (create_refund env _ _ w) as [[r|[success result]] w']; simpl in Hc.
  - exact Hc.
  - specialize (IH w' Hc). now destruct (run_rows env rest w') as [o w''].
Qed.

Lemma process_refunds_draws env csv st :
  drawn_in_order env (api st) ->
  drawn_in_order env (api (process_refunds env csv st).2).
Proof.
  intros Hst. destruct (process_refunds_spec env csv st) as (es & ->).
  pose proof (read_csv_file_keeps_api env csv (started csv st)) as Hapi.
  destruct (read_csv_file env csv (started csv st)) as [[e|rows] st2];
    simpl in *.
  - now rewrite Hapi.
  - now apply run_rows_draws.
Qed.

(** C8, as the code has it: in a run of [process_refunds] the token of
    the i-th refund call is the i-th value drawn from [uuid4], so no draw
    is used for two calls; the tokens of the run are pairwise distinct
    whenever the values drawn are. *)
Theorem fresh_tokens env csv st :
  api st = api initial_state ->
  (forall i request,
      calls (api (process_refunds env csv st).2) !! i = Some request ->
      token_of request = Some (PStr (uuid4 env i)))
  /\ ((forall m n, uuid4 env m = uuid4 env n -> m = n) ->
      NoDup (map token_of (calls (api (process_refunds env csv st).2)))).
Proof.
  intros Hst.
  assert (H0 : drawn_in_order env (api st)) by now rewrite Hst.
  pose proof (process_refunds_draws env csv st H0) as Hd.
  unfold drawn_in_order in Hd. split.
  - intros i request Hi.
    assert (Hm : map token_of (calls (api (process_refunds env csv st).2)) !! i
                 = Some (token_of request))
      by (now rewrite list_lookup_fmap, Hi).
    rewrite Hd, list_lookup_fmap in Hm.
    destruct (seq 0 _ !! i) as [j|] eqn:Hj; [|discriminate].
    apply lookup_seq in Hj as [-> _]. simpl in Hm. congruence.
  - intros Hinj. rewrite Hd. apply NoDup_fmap_2; [|apply NoDup_seq].
    intros m n [= H]. now apply Hinj.
Qed.

Lemma sample_uuid_inj m n : sample_uuid m = sample_uuid n -> m = n.
Proof.
  unfold sample_uuid. intros H.
  apply (f_equal list_ascii_of_string) in H.
  rewrite !list_ascii_of_string_of_list_ascii in H.
  apply (f_equal (@length ascii)) in H. rewrite !repeat_length in H. lia.
Qed.

(** The two calls of the run of [two_rows] carry different tokens. *)
Lemma fresh_tokens_witness :
  NoDup (map token_of
           (calls (api (process_refunds two_rows "refunds.csv"
                          initial_state).2)))
  /\ length (calls (api (process_refunds two_rows "refunds.csv"
                           initial_state).2)) = 2%nat.
Proof.
  split; [|vm_compute; reflexivity].
  apply (fresh_tokens two_rows "refunds.csv" initial_state eq_refl).
  exact sample_uuid_inj.
Defined.

(** C8 as stated fails when [uuid4] returns the same value twice: the two
    calls of the run carry the same token. *)
Lemma repeated_draw_shares_token :
  ~ NoDup (map token_of
             (calls (api (process_refunds same_token "refunds.csv"
                            initial_state).2))).
Proof.
  vm_compute. intros H. apply NoDup_cons in H as [Hnotin _].
  apply Hnotin. left.
Qed.

(** ** The loader: which rows it keeps *)

(** One row that has both fields: it is kept or skipped as [accepts]
    says, and the loop goes on. *)
Lemma read_rows_row fieldnames broken row_num fields rest refund_data st p a :
  fields <> [] ->
  dict_row fieldnames fields !! "payment_id" = Some (Some p) ->
  dict_row fieldnames fields !! "amount" = Some (Some a) ->
  exists entries,
    read_rows fieldnames broken row_num (fields :: rest) refund_data st
    = read_rows fieldnames broken (S row_num) rest
        (refund_data ++ kept (accepts p a) row_num) (add_log st entries).
Proof.
  intros Hne Hp Ha. destruct fields as [|f fs]; [contradiction|].
  cbn [read_rows]. unfold row_strip. rewrite Hp, Ha.
  unfold accepts, mbind, M_bind, of_result, mret, M_ret. cbv zeta.
  destruct (String.eqb (strip p) "").
  - eexists [_]. simpl. now rewrite app_nil_r.
  - destruct (PyFloat.of_string (strip a)) as [e|x].
    + eexists [_]. simpl. now rewrite app_nil_r.
    + destruct (PyFloat.leb x PyFloat.zero).
      * eexists [_]. simpl. now rewrite app_nil_r.
      * exists []. simpl. unfold add_log. rewrite app_nil_r.
        now destruct st.
Qed.

Lemma not_leb_zero x :
  PyFloat.leb x PyFloat.zero = false
  <-> PyFloat.ltb PyFloat.zero x = true \/ x = S754_nan.
Proof.
  destruct x as [s|[]| |[] m e]; simpl; split; intros H;
    try discriminate; try (destruct H; discriminate); auto.
Qed.

(** A row is kept exactly when its payment id is not empty once stripped,
    [float] takes the stripped amount, and the value is above zero or is
    NaN, the one float that is neither above zero nor [<= 0]. *)
Lemma accepts_iff p a payment_id amount :
  accepts p a = Some (payment_id, amount)
  <-> payment_id = strip p
      /\ payment_id <> ""
      /\ PyFloat.of_string (strip a) = inr amount
      /\ (PyFloat.ltb PyFloat.zero amount = true \/ amount = S754_nan).
Proof.
  unfold accepts. cbv zeta. rewrite <- not_leb_zero.
  destruct (String.eqb_spec (strip p) "") as [He|He].
  - split; [discriminate|]. intros (-> & Hn & _). contradiction.
  - destruct (PyFloat.of_string (strip a)) as [e|x].
    + split; [discriminate|]. intros (_ & _ & H & _). discriminate.
    + destruct (PyFloat.leb x PyFloat.zero) eqn:Hle.
      * split; [discriminate|]. intros (_ & _ & [= ->] & H). congruence.
      * split.
        -- intros [= <- <-]. auto.
        -- intros (-> & _ & [= ->] & _). reflexivity.
Qed.

(** The rows the spec names: amounts 0, -5 and abc are skipped, and 10.50
    is kept as the float 10.5. *)
Lemma named_amounts :
  accepts "PAY_1" "0" = None
  /\ accepts "PAY_1" "-5" = None
  /\ accepts "PAY_1" "abc" = None
  /\ accepts " " "10.50" = None
  /\ exists x, accepts "PAY_1" "10.50" = Some ("PAY_1", x)
               /\ (PyFloat.to_Q x == 21 # 2)%Q.
Proof.
  repeat (split; [vm_compute; reflexivity|]).
  eexists. split; vm_compute; reflexivity.
Qed.

(** C3 fails on the code at an amount of 'nan': [float] takes the text,
    [nan <= 0] is false, and the row is loaded with an amount that is not
    above zero; [create_refund] then fails to convert it and calls
    nobody. *)
Theorem nan_amount_is_loaded :
  (read_csv_file nan_row "refunds.csv" initial_state).1
  = inr [ {| payment_id := "PAY_1"; amount := S754_nan; row_number := 2 |} ]
  /\ PyFloat.of_string "nan" = inr S754_nan
  /\ PyFloat.ltb PyFloat.zero S754_nan = false
  /\ (process_refunds nan_row "refunds.csv" initial_state).1
     = inr {| total := 1; successful := 0; failed := 1 |}
  /\ calls (api (process_refunds nan_row "refunds.csv" initial_state).2) = [].
Proof. repeat split; vm_compute; reflexivity. Qed.

(** * More of the loader *)

(** ** [strip] strips once and for all *)

Lemma lstrip_chars_split l :
  exists ws, l = (ws ++ lstrip_chars l)%list.
Proof.
  induction l as [|c l (ws & IH)]; simpl.
  - now exists [].
  - destruct (is_space c).
    + exists (c :: ws). simpl. now rewrite <- IH.
    + now exists [].
Qed.

Lemma lstrip_chars_head l c t :
  lstrip_chars l = c :: t -> is_space c = false.
Proof.
  induction l as [|a l IH]; simpl; [discriminate|].
  destruct (is_space a) eqn:Ha; [exact IH|].
  intros [= <- _]. exact Ha.
Qed.

Lemma lstrip_chars_fixed l :
  match l with c :: _ => is_space c = false | [] => True end ->
  lstrip_chars l = l.
Proof. destruct l as [|c l]; simpl; [easy|]. now intros ->. Qed.

Lemma strip_chars_idempotent l :
  strip_chars (strip_chars l) = strip_chars l.
Proof.
  unfold strip_chars.
  set (A := lstrip_chars l). set (B := lstrip_chars (rev A)).
  assert (HB : lstrip_chars B = B).
  { apply lstrip_chars_fixed. destruct B as [|c t] eqn:E; [easy|].
    now apply (lstrip_chars_head (rev A) c t). }
  assert (HrB : lstrip_chars (rev B) = rev B).
  { apply lstrip_chars_fixed. destruct (rev B) as [|c t] eqn:E; [easy|].
    destruct (lstrip_chars_split (rev A)) as (ws & Hsplit). fold B in Hsplit.
    apply (f_equal (@rev ascii)) in Hsplit.
    rewrite rev_involutive, rev_app_distr, E in Hsplit. simpl in Hsplit.
    now apply (lstrip_chars_head l c (t ++ rev ws)). }
  now rewrite HrB, rev_involutive, HB.
Qed.

Lemma strip_idempotent s : strip (strip s) = strip s.
Proof.
  unfold strip. rewrite list_ascii_of_string_of_list_ascii.
  now rewrite strip_chars_idempotent.
Qed.

Lemma row_strip_stripped row k p :
  row_strip row k = inr p -> strip p = p.
Proof.
  unfold row_strip. destruct (row !! k) as [[s|]|]; try discriminate.
  intros [= <-]. apply strip_idempotent.
Qed.

(** ** What a finished load leaves behind *)

Lemma add_log_nil st : add_log st [] = st.
Proof. destruct st. unfold add_log. simpl. now rewrite app_nil_r. Qed.

Lemma add_log_app st a b : add_log (add_log st a) b = add_log st (a ++ b).
Proof. unfold add_log. simpl. now rewrite app_assoc. Qed.

Lemma loaded_ok_wider first n r :
  loaded_ok (S first) n r -> loaded_ok first (S n) r.
Proof. unfold loaded_ok. intros (? & ? & ? & ?). repeat split; auto; lia. Qed.

Lemma read_rows_inv fieldnames broken rows :
  forall row_num refund_data st l st',
    read_rows fieldnames broken row_num rows refund_data st = (inr l, st') ->
    exists new warnings,
      l = (refund_data ++ new)%list
      /\ st' = add_log st warnings
      /\ Forall (fun entry => is_skip_warning entry = true) warnings
      /\ (length new + length warnings = length (data_rows rows))%nat
      /\ Forall (loaded_ok row_num (length (data_rows rows))) new
      /\ StronglySorted lt (map row_number new)
      /\ broken = None.
Proof.
  induction rows as [|fields rest IH]; intros row_num refund_data st l st' H.
  - simpl in H. destruct broken; [discriminate|]. inversion H; subst.
    exists [], []. rewrite app_nil_r, add_log_nil.
    repeat split; constructor.
  - destruct fields as [|f fs]; [exact (IH _ _ _ _ _ H)|].
    cbn [read_rows] in H. unfold mbind, M_bind in H.
    destruct (row_strip _ "payment_id") as [e|p] eqn:Hp; [discriminate|].
    destruct (row_strip _ "amount") as [e|a]; [discriminate|].
    cbn [of_result mret M_ret] in H.
    assert (Hskip : forall w,
               is_skip_warning w = true ->
               read_rows fieldnames broken (S row_num) rest refund_data
                 (add_log st [w]) = (inr l, st') ->
               exists new warnings,
                 l = (refund_data ++ new)%list
                 /\ st' = add_log st warnings
                 /\ Forall (fun entry => is_skip_warning entry = true) warnings
                 /\ (length new + length warnings
                     = length (data_rows ((f :: fs) :: rest)))%nat
                 /\ Forall (loaded_ok row_num
                              (length (data_rows ((f :: fs) :: rest)))) new
                 /\ StronglySorted lt (map row_number new)
                 /\ broken = None).
    { intros w Hw Hr.
      apply IH in Hr as (new & ws & -> & -> & Hws & Hlen & Hok & Hs & Hb).
      exists new, (w :: ws). rewrite add_log_app.
      repeat split; auto.
      - simpl. lia.
      - simpl. eapply Forall_impl; [exact Hok|].
        intros r. apply loaded_ok_wider. }
    destruct (String.eqb_spec p "") as [He|He].
    + exact (Hskip (WARNING, EmptyPaymentId row_num) eq_refl H).
    + destruct (PyFloat.of_string a) as [e|x];
        [exact (Hskip (WARNING, InvalidAmountFormat row_num a) eq_refl H)|].
      destruct (PyFloat.leb x PyFloat.zero) eqn:Hle;
        [exact (Hskip (WARNING, InvalidAmount row_num x) eq_refl H)|].
      apply IH in H as (new & ws & -> & -> & Hws & Hlen & Hok & Hs & Hb).
      exists ({| payment_id := p; amount := x; row_number := row_num |} :: new),
        ws.
      rewrite <- app_assoc. repeat split; auto.
      * simpl. lia.
      * simpl. constructor.
        -- repeat split; simpl; auto; try lia.
           now apply (row_strip_stripped _ _ _ Hp).
        -- eapply Forall_impl; [exact Hok|]. intros r. apply loaded_ok_wider.
      * simpl. constructor; [exact Hs|].
        apply Forall_forall. intros n Hn.
        apply list_elem_of_In, in_map_iff in Hn as (r & <- & Hr).
        rewrite Forall_forall in Hok.
        destruct (Hok r) as (_ & _ & _ & Hrange);
          [now apply list_elem_of_In|]. lia.
Qed.

(** How a load that returns went: the header was accepted, the reader
    did not break, and the loop ran over the rows. *)
Lemma read_csv_file_inr env csv st l st' :
  read_csv_file env csv st = (inr l, st') ->
  exists names rows s1,
    open_csv env csv = Table (Some names) rows None
    /\ "payment_id" ∈ names /\ "amount" ∈ names
    /\ read_rows names None 2 rows []
         (add_log st [(INFO, CsvColumnsFound names)]) = (inr l, s1)
    /\ st' = add_log s1 [(INFO, ReadEntries (length l))].
Proof.
  unfold read_csv_file. intros H.
  apply bind_inv in H as (l0 & s1 & Htry & H).
  rewrite (bind_inr _ _ _ _ _ (logger_spec _ _ _)) in H.
  inversion H; subst l0 st'. clear H.
  unfold try_except in Htry.
  destruct (read_csv_body env csv st) as [[[e|]|l1] s2] eqn:Hbody.
  - destruct e; rewrite (bind_inr _ _ _ _ _ (logger_spec _ _ _)) in Htry;
      discriminate.
  - discriminate.
  - inversion Htry; subst l1 s2. clear Htry.
    unfold read_csv_body in Hbody.
    destruct (open_csv env csv) as [e|fieldnames rows broken];
      [discriminate|].
    cbv zeta in Hbody.
    destruct (negb (truthy fieldnames)) eqn:Ht; simpl in Hbody.
    { repeat rewrite (bind_inr _ _ _ _ _ (logger_spec _ _ _)) in Hbody.
      discriminate. }
    destruct (bool_decide _) eqn:Hsub; simpl in Hbody.
    2:{ repeat rewrite (bind_inr _ _ _ _ _ (logger_spec _ _ _)) in Hbody.
        discriminate. }
    rewrite (bind_inr _ _ _ _ _ (logger_spec _ _ _)) in Hbody.
    destruct fieldnames as [names|]; [|discriminate]. simpl in *.
    destruct (read_rows_inv _ _ _ _ _ _ _ _ Hbody)
      as (new & ws & _ & _ & _ & _ & _ & _ & Hb).
    subst broken.
    apply bool_decide_eq_true_1, required_columns_subset in Hsub as [Hp Ha].
    exists names, rows, s1. repeat split; auto.
Qed.

(** X1: every request [read_csv_file] returns has a payment id that is
    not empty and has no white space around it, and an amount that is not
    [<= 0]. *)
Theorem loaded_requests_are_clean env csv st l st' :
  read_csv_file env csv st = (inr l, st') ->
  Forall (fun r => payment_id r <> ""
                   /\ strip (payment_id r) = payment_id r
                   /\ PyFloat.leb (amount r) PyFloat.zero = false) l.
Proof.
  intros H. apply read_csv_file_inr in H as (names & rows & s1 & _ & _ & _ & H & _).
  apply read_rows_inv in H as (new & ws & -> & _ & _ & _ & Hok & _).
  simpl. eapply Forall_impl; [exact Hok|].
  intros r (? & ? & ? & _). auto.
Qed.

Lemma loaded_requests_are_clean_witness :
  exists l st',
    read_csv_file four_rows "refunds.csv" initial_state = (inr l, st')
    /\ map payment_id l = ["PAY_1"; "PAY_3"]
    /\ Forall (fun r => payment_id r <> ""
                        /\ strip (payment_id r) = payment_id r
                        /\ PyFloat.leb (amount r) PyFloat.zero = false) l.
Proof.
  destruct (read_csv_file four_rows "refunds.csv" initial_state)
    as [r st'] eqn:H.
  destruct r as [e|l]; [vm_compute in H; discriminate|].
  exists l, st'. split; [reflexivity|]. split.
  - vm_compute in H. now inversion H.
  - exact (loaded_requests_are_clean _ _ _ _ _ H).
Defined.

(** X2: the row numbers of the requests [read_csv_file] returns go up
    strictly, in the order of the list; they start at 2 and stay below 2
    plus the number of rows that are not blank. *)
Theorem row_numbers_ascend env csv st fieldnames rows broken l st' :
  open_csv env csv = Table fieldnames rows broken ->
  read_csv_file env csv st = (inr l, st') ->
  StronglySorted lt (map row_number l)
  /\ Forall (fun r => (2 <= row_number r < 2 + length (data_rows rows))%nat) l.
Proof.
  intros Hopen H.
  apply read_csv_file_inr in H as (names & rows' & s1 & Ho & _ & _ & H & _).
  rewrite Hopen in Ho. inversion Ho; subst.
  apply read_rows_inv in H as (new & ws & -> & _ & _ & _ & Hok & Hs & _).
  simpl. split; [exact Hs|].
  eapply Forall_impl; [exact Hok|]. intros r (_ & _ & _ & ?). assumption.
Qed.

Lemma row_numbers_ascend_witness :
  exists l st',
    read_csv_file four_rows "refunds.csv" initial_state = (inr l, st')
    /\ map row_number l = [2; 5]%nat
    /\ StronglySorted lt (map row_number l).
Proof.
  destruct (read_csv_file four_rows "refunds.csv" initial_state)
    as [r st'] eqn:H.
  destruct r as [e|l]; [vm_compute in H; discriminate|].
  exists l, st'. split; [reflexivity|]. split.
  - vm_compute in H. now inversion H.
  - exact (proj1 (row_numbers_ascend four_rows "refunds.csv" initial_state
                    _ _ _ l st' eq_refl H)).
Defined.

(** X3: when [read_csv_file] returns, every row that is not blank was
    either kept or skipped with one warning of its own: the requests and
    the warnings together are as many as those rows. The log then holds,
    after what was there, the columns found, the warnings, and the number
    of requests read; nothing else was touched. *)
Theorem rows_kept_or_warned env csv st fieldnames rows broken l st' :
  open_csv env csv = Table fieldnames rows broken ->
  read_csv_file env csv st = (inr l, st') ->
  exists names warnings,
    fieldnames = Some names
    /\ st' = add_log st ((INFO, CsvColumnsFound names) :: warnings
                         ++ [(INFO, ReadEntries (length l))])
    /\ Forall (fun entry => is_skip_warning entry = true) warnings
    /\ (length l + length warnings = length (data_rows rows))%nat.
Proof.
  intros Hopen H.
  apply read_csv_file_inr in H as (names & rows' & s1 & Ho & _ & _ & H & ->).
  rewrite Hopen in Ho. inversion Ho; subst.
  apply read_rows_inv in H as (new & ws & -> & -> & Hws & Hlen & _).
  exists names, ws. split; [reflexivity|]. split; [|split; assumption].
  rewrite !add_log_app. reflexivity.
Qed.

Lemma rows_kept_or_warned_witness :
  exists l st' warnings,
    read_csv_file four_rows "refunds.csv" initial_state = (inr l, st')
    /\ length l = 2%nat /\ length warnings = 2%nat
    /\ log st'
       = (INFO, CsvColumnsFound ["note"; "amount"; "payment_id"])
         :: warnings ++ [(INFO, ReadEntries 2)].
Proof.
  destruct (read_csv_file four_rows "refunds.csv" initial_state)
    as [r st'] eqn:H.
  destruct r as [e|l]; [vm_compute in H; discriminate|].
  destruct (rows_kept_or_warned four_rows "refunds.csv" initial_state
              _ _ _ l st' eq_refl H) as (names & ws & Hn & -> & _ & Hlen).
  assert (Hl : length l = 2%nat) by (vm_compute in H; now inversion H).
  eexists l, _, ws. split; [reflexivity|]. split; [exact Hl|].
  split.
  - rewrite Hl in Hlen. cbn in Hlen. lia.
  - inversion Hn; subst names. rewrite Hl. reflexivity.
Defined.

(** X4: the last line [read_csv_file] logs tells how it ended: the number
    of requests when it returns them, and otherwise the error report of
    the very exception it raises ('CSV file not found' for a
    [FileNotFoundError], 'Error reading CSV file' with the message for any
    other). *)
Theorem load_ends_with_its_report env csv st :
  match read_csv_file env csv st with
  | (inr l, st') => last (log st') = Some (INFO, ReadEntries (length l))
  | (inl (Exc e), st') =>
      last (log st') = Some (load_error_line csv e)
      /\ exists s1, read_csv_body env csv st = (inl (Exc e), s1)
                    /\ st' = add_log s1 [load_error_line csv e]
  | (inl KeyboardInterrupt, _) => False
  end.
Proof.
  pose proof (read_csv_file_uninterrupted env csv st) as Hu.
  destruct (read_csv_file env csv st) as [[[e|]|l] st'] eqn:H.
  - unfold read_csv_file in H. unfold mbind, M_bind, try_except in H.
    destruct (read_csv_body env csv st) as [[[e0|]|l0] s1] eqn:Hbody.
    + assert (He : e0 = e /\ st' = add_log s1 [load_error_line csv e0]).
      { destruct e0; simpl in H; inversion H; subst; split; reflexivity. }
      destruct He as [-> ->]. split.
      * unfold add_log. simpl. apply last_snoc.
      * exists s1. split; reflexivity.
    + discriminate.
    + simpl in H. discriminate.
  - now destruct (Hu _ _ eq_refl).
  - apply read_csv_file_inr in H as (names & rows & s1 & _ & _ & _ & _ & ->).
    unfold add_log. simpl. apply last_snoc.
Qed.




(** ** Columns are read by name *)

Lemma zip_fold_lookup (l : list (string * string)) :
  forall (d : gmap string (option string)) k v,
    NoDup l.*1 -> (k, v) ∈ l ->
    fold_left (fun d kv => <[kv.1 := Some kv.2]> d) l d !! k = Some (Some v).
Proof.
  induction l as [|[a x] l IH]; intros d k v Hnd Hin; simpl.
  - now apply elem_of_nil in Hin.
  - rewrite fmap_cons in Hnd. apply NoDup_cons in Hnd as [Hnotin Hnd].
    apply elem_of_cons in Hin as [[= -> ->]|Hin].
    + rewrite zip_fold_other by exact Hnotin. apply lookup_insert_eq.
    + now apply IH.
Qed.

Lemma dict_row_lookup names fields i k v :
  NoDup names -> names !! i = Some k -> fields !! i = Some v ->
  dict_row names fields !! k = Some (Some v).
Proof.
  intros Hnd Hk Hv. unfold dict_row. rewrite restval_lookup.
  rewrite bool_decide_eq_false_2.
  - apply zip_fold_lookup.
    + rewrite fst_zip_take. eapply sublist_NoDup; [exact Hnd|].
      apply sublist_take.
    + apply (list_elem_of_lookup_2 _ i). apply lookup_zip_with_Some.
      now exists k, v.
  - intros Hin. apply list_elem_of_lookup_1 in Hin as (j & Hj).
    rewrite lookup_drop in Hj.
    pose proof (NoDup_lookup _ _ _ _ Hnd Hk Hj) as Heq.
    apply lookup_lt_Some in Hv. lia.
Qed.

(** X6: the loader reads a row by the names of the columns. When the
    header names are distinct, 'payment_id' is column [i] and 'amount' is
    column [j], a row is kept or skipped by its fields [i] and [j] alone,
    whatever the order of the columns and whatever else the row holds. *)
Theorem columns_are_read_by_name names broken row_num fields rest refund_data
  st i j p a :
  NoDup names ->
  names !! i = Some "payment_id" -> names !! j = Some "amount" ->
  fields !! i = Some p -> fields !! j = Some a ->
  exists entries,
    read_rows names broken row_num (fields :: rest) refund_data st
    = read_rows names broken (S row_num) rest
        (refund_data ++ kept (accepts p a) row_num) (add_log st entries).
Proof.
  intros Hnd Hi Hj Hp Ha. apply read_rows_row.
  - intros ->. discriminate.
  - exact (dict_row_lookup _ _ _ _ _ Hnd Hi Hp).
  - exact (dict_row_lookup _ _ _ _ _ Hnd Hj Ha).
Qed.

Lemma columns_are_read_by_name_witness :
  exists st',
    read_rows ["note"; "amount"; "payment_id"] None 2
      [["fourth"; "7.25"; "PAY_3"; "extra"]] [] initial_state
    = (inr [ {| payment_id := "PAY_3";
                amount := S754_finite false 8162774324609024 (-50);
                row_number := 2 |} ], st').
Proof.
  destruct (columns_are_read_by_name ["note"; "amount"; "payment_id"] None 2
              ["fourth"; "7.25"; "PAY_3"; "extra"] [] [] initial_state
              2 1 "PAY_3" "7.25") as (entries & H);
    try reflexivity.
  - apply (bool_decide_unpack _). vm_compute. exact I.
  - rewrite H. eexists. vm_compute. reflexivity.
Defined.

(** * More of the runner *)

(** ** One call for each row, in order *)

Lemma create_refund_calls env payment_id amount w :
  match PyFloat.to_int (PyFloat.mul amount (PyFloat.of_Z 100)) with
  | inr amount_cents =>
      (create_refund env payment_id amount w).2
      = {| uuids_drawn := S (uuids_drawn w);
           calls := calls w ++
             [refund_request_body (uuid4 env (uuids_drawn w)) amount_cents
                payment_id] |}
  | inl _ => (create_refund env payment_id amount w).2 = w
  end.
Proof.
  pose proof (create_refund_run env payment_id amount w) as Hrun.
  destruct (create_refund env payment_id amount w) as [r w'].
  cbn [fst snd] in *.
  inversion Hrun as [e He|cents request event r0 Hc Hreq Hev Hcase]; subst.
  - now rewrite He.
  - now rewrite Hc.
Qed.

Lemma run_rows_calls env rows :
  forall w,
    (exists k,
        calls (run_rows env rows w).2
        = (calls w ++ take k (expected_calls env (uuids_drawn w) rows))%list)
    /\ ((run_rows env rows w).1 <> None ->
        calls (run_rows env rows w).2
        = (calls w ++ expected_calls env (uuids_drawn w) rows)%list).
Proof.
  induction rows as [|r rest IH]; intros w.
  - split; [exists 0%nat|intros _]; simpl; now rewrite app_nil_r.
  - cbn [run_rows expected_calls].
    pose proof (create_refund_calls env (payment_id r) (amount r) w) as Hc.
    destruct (create_refund env (payment_id r) (amount r) w)
      as [[e|[success result]] w'] eqn:Hcr; simpl in Hc.
    + (* interrupted in this call *)
      split; [|intros H; now destruct H].
      destruct (PyFloat.to_int _) as [e'|cents]; subst w'; simpl.
      * exists 0%nat. now rewrite take_0, app_nil_r.
      * exists 1%nat. reflexivity.
    + destruct (IH w') as ((k & Hk) & Hfull).
      destruct (run_rows env rest w') as [o w''] eqn:Hrr. simpl in *.
      destruct (PyFloat.to_int _) as [e'|cents]; subst w'; simpl in *.
      * split; [now exists k|].
        intros Hsome. apply Hfull. now destruct o.
      * split.
        -- exists (S k). rewrite Hk, <- app_assoc. reflexivity.
        -- intros Hsome. rewrite Hfull by now destruct o.
           now rewrite <- app_assoc.
Qed.

Lemma expected_calls_length env rows :
  forall n, (length (expected_calls env n rows) <= length rows)%nat.
Proof.
  induction rows as [|r rest IH]; intros n; simpl; [lia|].
  destruct (PyFloat.to_int _); simpl; [specialize (IH n)|specialize (IH (S n))];
    lia.
Qed.

(** X7: nothing is sent twice and nothing out of turn. Over the loaded
    rows, [process_refunds] adds to the calls made before exactly the
    requests of the rows whose amounts convert to cents, one each, in the
    order of the rows, each with its row's payment id and the next token,
    whatever the collaborator answers; when the user interrupts, what was
    added is a beginning of that list. There are never more new calls than
    rows. *)
Theorem one_call_per_row_in_order env csv st rows st2 :
  read_csv_file env csv (started csv st) = (inr rows, st2) ->
  let sent := expected_calls env (uuids_drawn (api st)) rows in
  let after := calls (api (process_refunds env csv st).2) in
  (exists k, after = (calls (api st) ++ take k sent)%list)
  /\ (forall s, (process_refunds env csv st).1 = inr s ->
                after = (calls (api st) ++ sent)%list)
  /\ (length sent <= length rows)%nat.
Proof.
  intros Hread sent after. subst sent after.
  destruct (process_refunds_spec env csv st) as (es & ->).
  rewrite Hread. cbn [fst snd api add_log with_api].
  destruct (run_rows_calls env rows (api st)) as (Hprefix & Hfull).
  split; [exact Hprefix|]. split; [|apply expected_calls_length].
  intros s Hs. apply Hfull.
  destruct (run_rows env rows (api st)).1; [discriminate|discriminate].
Qed.

Lemma one_call_per_row_in_order_witness :
  map (fun request => py_item request "payment_id")
    (calls (api (process_refunds four_rows "refunds.csv" initial_state).2))
  = [inr (PStr "PAY_1"); inr (PStr "PAY_3")].
Proof.
  destruct (read_csv_file four_rows "refunds.csv"
              (started "refunds.csv" initial_state)) as [r st2] eqn:Hread.
  destruct r as [e|rows]; [vm_compute in Hread; discriminate|].
  destruct (one_call_per_row_in_order four_rows "refunds.csv" initial_state
              rows st2 Hread) as (_ & Hfull & _).
  assert (Hs : (process_refunds four_rows "refunds.csv" initial_state).1
               = inr {| total := 2; successful := 2; failed := 0 |})
    by (vm_compute; reflexivity).
  rewrite (Hfull _ Hs).
  vm_compute in Hread. inversion Hread; subst rows.
  vm_compute. reflexivity.
Defined.

(** ** What [create_refund] makes of a response *)

Lemma create_refund_on_response env payment_id amount w amount_cents response :
  PyFloat.to_int (PyFloat.mul amount (PyFloat.of_Z 100)) = inr amount_cents ->
  refund_payment env (calls w)
    (refund_request_body (uuid4 env (uuids_drawn w)) amount_cents payment_id)
  = Returns response ->
  let w1 := {| uuids_drawn := S (uuids_drawn w);
               calls := calls w ++
                 [refund_request_body (uuid4 env (uuids_drawn w)) amount_cents
                    payment_id] |} in
  create_refund env payment_id amount w
  = (match (read_response payment_id amount response w1).1 with
     | inr outcome => inr outcome
     | inl (Exc e) => inr (false, exception_result e payment_id amount)
     | inl KeyboardInterrupt => inl KeyboardInterrupt
     end, w1).
Proof.
  intros Hint Hev w1.
  assert (Hbody : create_refund_body env payment_id amount w
                  = read_response payment_id amount response w1).
  { unfold create_refund_body. rewrite Hint.
    unfold mbind at 1, M_bind at 1, of_result, mret, M_ret.
    unfold mbind at 1, M_bind at 1, uuid4_str.
    unfold mbind at 1, M_bind at 1, call_refund_payment. simpl.
    now rewrite Hev. }
  destruct (read_response_pure payment_id amount response w1)
    as [[outcome Hr]|[e He]].
  - rewrite Hr in *. unfold create_refund.
    now rewrite (try_except_inr _ _ _ _ _ Hbody).
  - rewrite He in *. now rewrite (create_refund_catches _ _ _ _ _ _ Hbody).
Qed.

(** X8: when the collaborator answers with a response that says success,
    the row counts as a success exactly when the body can be read
    ([readable]). The result then carries the id and the status of the
    refund in the body, and the amount that was asked for. When the body
    cannot be read the row is an 'Unexpected Error' failure, although the
    call was made. *)
Theorem success_needs_a_readable_body env payment_id amount w amount_cents
  response :
  PyFloat.to_int (PyFloat.mul amount (PyFloat.of_Z 100)) = inr amount_cents ->
  refund_payment env (calls w)
    (refund_request_body (uuid4 env (uuids_drawn w)) amount_cents payment_id)
  = Returns response ->
  is_success response = true ->
  exists result,
    create_refund env payment_id amount w
    = (inr (readable response, result),
       {| uuids_drawn := S (uuids_drawn w);
          calls := calls w ++
            [refund_request_body (uuid4 env (uuids_drawn w)) amount_cents
               payment_id] |})
    /\ dict_get result "payment_id" = Some (PStr payment_id)
    /\ dict_get result "amount" = Some (PFloat amount)
    /\ (readable response = true ->
        dict_get result "refund_id"
        = Some (dict_get_default (refund_of response) "id" PNone)
        /\ dict_get result "status"
           = Some (dict_get_default (refund_of response) "status" PNone))
    /\ (readable response = false ->
        dict_get result "error" = Some (PStr "Unexpected Error")).
Proof.
  intros Hint Hev Hs.
  rewrite (create_refund_on_response _ _ _ _ _ _ Hint Hev).
  unfold read_response, readable, refund_of. rewrite Hs.
  destruct (body response) as [| | | | |l|b];
    try (eexists; split; [reflexivity|];
         repeat split; try reflexivity; discriminate).
  unfold mbind at 1, M_bind at 1. cbn [py_get of_result mret M_ret].
  destruct (dict_get_default b "refund" (PDict [])) as [| | | | |l|r];
    try (eexists; split; [reflexivity|];
         repeat split; try reflexivity; discriminate).
  unfold mbind, M_bind. cbn [py_get of_result mret M_ret].
  destruct (dict_get_default r "amount_money" (PDict [])) as [| | | | |l|am];
    try (eexists; split; [reflexivity|];
         repeat split; try reflexivity; discriminate).
Qed.

Lemma success_needs_a_readable_body_witness :
  exists result,
    (create_refund
       (world (Table (Some header) [] None) sample_uuid
          (fun _ _ => Returns empty_success))
       "PAY_1" ten_005 (api initial_state)).1
    = inr (false, result)
    /\ dict_get result "error" = Some (PStr "Unexpected Error").
Proof.
  destruct (success_needs_a_readable_body
              (world (Table (Some header) [] None) sample_uuid
                 (fun _ _ => Returns empty_success))
              "PAY_1" ten_005 (api initial_state) 1000 empty_success)
    as (result & H & _ & _ & _ & Hunreadable); [reflexivity..|].
  exists result. rewrite H. split; [reflexivity|].
  apply Hunreadable. reflexivity.
Defined.

Lemma brief_comprehension (es : list pyval) (w : api_state) :
  Forall is_dict es ->
  comprehension (S := api_state)
    (fun e =>
       code ← of_result (py_get e "code" PNone);
       detail ← of_result (py_get e "detail" PNone);
       mret (PDict [ ("code", code); ("detail", detail) ]))
    es w = (inr (map brief es), w).
Proof.
  induction 1 as [|e es (d & ->) _ IH].
  - reflexivity.
  - cbn [comprehension].
    erewrite bind_inr by reflexivity.
    erewrite bind_inr by exact IH.
    reflexivity.
Qed.

(** X9: when the collaborator answers with a response that does not say
    success and lists its errors as dicts, the failure result lists, in
    the same order, the code and the detail of each and nothing else of
    it ([None] where an error has no code or no detail); a response
    without the attribute gives the empty list. *)
Theorem failure_lists_the_errors env payment_id amount w amount_cents
  response es :
  PyFloat.to_int (PyFloat.mul amount (PyFloat.of_Z 100)) = inr amount_cents ->
  refund_payment env (calls w)
    (refund_request_body (uuid4 env (uuids_drawn w)) amount_cents payment_id)
  = Returns response ->
  is_success response = false ->
  default (PList []) (errors response) = PList es ->
  Forall is_dict es ->
  (create_refund env payment_id amount w).1
  = inr (false, [ ("errors", PList (map brief es));
                  ("payment_id", PStr payment_id);
                  ("amount", PFloat amount) ]).
Proof.
  intros Hint Hev Hs Hes Hall.
  rewrite (create_refund_on_response _ _ _ _ _ _ Hint Hev).
  unfold read_response. rewrite Hs, Hes. cbn [fst py_iter].
  erewrite bind_inr by reflexivity.
  erewrite bind_inr by (apply brief_comprehension; exact Hall).
  reflexivity.
Qed.

Lemma failure_lists_the_errors_witness :
  (create_refund two_rows "PAY_A" ten_005 (api initial_state)).1
  = inr (false,
         [ ("errors",
            PList [ PDict [ ("code", PStr "REFUND_DECLINED");
                            ("detail", PStr "declined") ] ]);
           ("payment_id", PStr "PAY_A");
           ("amount", PFloat ten_005) ]).
Proof.
  rewrite (failure_lists_the_errors two_rows "PAY_A" ten_005
             (api initial_state) 1000 declined_response
             [ PDict [ ("category", PStr "REFUND_ERROR");
                       ("code", PStr "REFUND_DECLINED");
                       ("detail", PStr "declined") ] ]);
    try reflexivity.
  repeat constructor. eexists. reflexivity.
Defined.

(** ** The log and the summary agree *)

Lemma of_result_inv {St A} (r : py_exception + A) (s s' : St) a :
  of_result r s = (inr a, s') -> r = inr a /\ s' = s.
Proof. destruct r; simpl; [discriminate|]. now intros [= -> ->]. Qed.

Lemma pure_inv {St A} (m : M St A) s a s' :
  pure m -> m s = (inr a, s') -> s' = s.
Proof.
  intros Hp H. destruct (Hp s) as [[a0 H0]|[e H0]]; rewrite H0 in H;
    now inversion H.
Qed.

Lemma lines_app kind a b : lines kind (a ++ b) = lines kind a + lines kind b.
Proof. unfold lines. rewrite List.filter_app, length_app. lia. Qed.

Lemma lines_warnings kind warnings :
  (forall entry, is_skip_warning entry = true -> kind entry = false) ->
  Forall (fun entry => is_skip_warning entry = true) warnings ->
  lines kind warnings = 0.
Proof.
  intros Hk. induction 1 as [|w ws Hw _ IH]; [reflexivity|].
  unfold lines in *. simpl. now rewrite (Hk w Hw).
Qed.

Lemma record_outcome_log refund success result counters st counters' st' :
  record_outcome refund success result counters st = (inr counters', st') ->
  exists line,
    st' = add_log st [line]
    /\ counters' = bump success counters
    /\ is_success_line line = success
    /\ is_failure_line line = negb success
    /\ is_processing_line line = false.
Proof.
  destruct counters as [s f]. unfold record_outcome, bump.
  destruct success; cbn [fst snd]; intros H.
  - apply bind_inv in H as (refund_id & s1 & H1 & H).
    apply of_result_inv in H1 as [_ ->].
    apply bind_inv in H as (status & s2 & H2 & H).
    apply of_result_inv in H2 as [_ ->].
    apply bind_inv in H as (amt & s3 & H3 & H).
    apply of_result_inv in H3 as [_ ->].
    rewrite (bind_inr _ _ _ _ _ (logger_spec _ _ _)) in H.
    inversion H; subst. eexists. repeat split; reflexivity.
  - apply bind_inv in H as ([] & s1 & Hlog & H). inversion H; subst.
    destruct (dict_has result "errors").
    + apply bind_inv in Hlog as (errs & s2 & H1 & Hlog).
      apply of_result_inv in H1 as [_ ->].
      apply bind_inv in Hlog as (es & s3 & H2 & Hlog).
      apply of_result_inv in H2 as [_ ->].
      apply bind_inv in Hlog as (details & s4 & H3 & Hlog).
      apply pure_inv in H3; [subst s4|].
      * inversion Hlog; subst. eexists. repeat split; reflexivity.
      * apply pure_comprehension. intros e.
        repeat (apply pure_bind; [apply pure_of_result|intros ?]).
        apply pure_ret.
    + inversion Hlog; subst. eexists. repeat split; reflexivity.
Qed.

Lemma refund_step_log env n i refund counters st counters' st' :
  refund_step env n i refund counters st = (inr counters', st') ->
  exists line success,
    log st' = (log st ++
                [(INFO, ProcessingRefund i n (payment_id refund)
                          (amount refund)); line])%list
    /\ counters' = bump success counters
    /\ is_success_line line = success
    /\ is_failure_line line = negb success
    /\ is_processing_line line = false.
Proof.
  unfold refund_step. rewrite (bind_inr _ _ _ _ _ (logger_spec _ _ _)).
  intros H. apply bind_inv in H as ([success result] & s1 & Hc & H).
  unfold lift_api in Hc. cbn [api log stdout] in Hc.
  destruct (create_refund env _ _ (api st)) as [r w]. inversion Hc; subst.
  apply record_outcome_log in H as (line & -> & -> & H1 & H2 & H3).
  exists line, success. cbn [fst snd log add_log].
  rewrite <- app_assoc. repeat split; assumption.
Qed.

Lemma refund_loop_log env n rows :
  forall i counters st counters' st',
    refund_loop env n i rows counters st = (inr counters', st') ->
    exists entries,
      log st' = (log st ++ entries)%list
      /\ lines is_success_line entries = counters'.1 - counters.1
      /\ lines is_failure_line entries = counters'.2 - counters.2
      /\ lines is_processing_line entries = Z.of_nat (length rows).
Proof.
  induction rows as [|refund rest IH]; intros i counters st counters' st' H.
  - inversion H; subst. exists []. rewrite app_nil_r.
    repeat split; unfold lines; simpl; lia.
  - cbn [refund_loop] in H. apply bind_inv in H as (c1 & s1 & Hstep & H).
    apply refund_step_log in Hstep
      as (line & success & Hlog & -> & Hs & Hf & Hp).
    apply IH in H as (es & Hlog' & Hs' & Hf' & Hp').
    eexists (_ :: line :: es). split.
    + rewrite Hlog', Hlog, <- app_assoc. reflexivity.
    + change (?a :: line :: es) with ([a; line] ++ es)%list.
      rewrite !lines_app, Hs', Hf', Hp'.
      unfold lines. cbn [List.filter is_success_line is_failure_line
                           is_processing_line].
      rewrite Hs, Hf, Hp.
      destruct counters as [s f], success; unfold bump; cbn [fst snd negb];
        simpl length; repeat split; lia.
Qed.

Lemma read_csv_file_log env csv st l st' :
  read_csv_file env csv st = (inr l, st') ->
  exists names warnings,
    st' = add_log st ((INFO, CsvColumnsFound names) :: warnings
                      ++ [(INFO, ReadEntries (length l))])
    /\ Forall (fun entry => is_skip_warning entry = true) warnings.
Proof.
  intros H.
  apply read_csv_file_inr in H as (names & rows & s1 & _ & _ & _ & H & ->).
  apply read_rows_inv in H as (new & ws & _ & -> & Hws & _).
  exists names, ws. split; [|exact Hws]. now rewrite !add_log_app.
Qed.

(** X10: the log of a run that returns a summary agrees with it: of the
    lines the run added, as many say 'Refund successful' as [successful]
    counts, as many say 'Refund failed' as [failed] counts, and as many
    say 'Processing refund' as [total] counts. *)
Theorem log_agrees_with_summary env csv st s st' :
  process_refunds env csv st = (inr s, st') ->
  exists entries,
    log st' = (log st ++ entries)%list
    /\ lines is_success_line entries = successful s
    /\ lines is_failure_line entries = failed s
    /\ lines is_processing_line entries = total s.
Proof.
  unfold process_refunds. rewrite (bind_inr _ _ _ _ _ (logger_spec _ _ _)).
  intros H. apply bind_inv in H as (rows & st2 & Hread & H).
  apply read_csv_file_log in Hread as (names & ws & -> & Hws).
  assert (Hnone : forall kind,
             (forall entry, is_skip_warning entry = true -> kind entry = false) ->
             kind (INFO, StartingFrom csv) = false ->
             kind (INFO, CsvColumnsFound names) = false ->
             kind (INFO, ReadEntries (length rows)) = false ->
             lines kind
               ((INFO, StartingFrom csv) :: (INFO, CsvColumnsFound names)
                :: ws ++ [(INFO, ReadEntries (length rows))]) = 0).
  { intros kind Hk H1 H2 H3.
    change (?a :: ?b :: ws ++ ?c) with ([a; b] ++ ws ++ c)%list.
    rewrite !lines_app, (lines_warnings kind ws Hk Hws).
    unfold lines. simpl. now rewrite H1, H2, H3. }
  assert (Hs0 := Hnone is_success_line
                   ltac:(intros [[] []]; simpl; congruence)
                   eq_refl eq_refl eq_refl).
  assert (Hf0 := Hnone is_failure_line
                   ltac:(intros [[] []]; simpl; congruence)
                   eq_refl eq_refl eq_refl).
  assert (Hp0 := Hnone is_processing_line
                   ltac:(intros [[] []]; simpl; congruence)
                   eq_refl eq_refl eq_refl).
  clear Hnone.
  set (loading := (INFO, StartingFrom csv) :: (INFO, CsvColumnsFound names)
                  :: ws ++ [(INFO, ReadEntries (length rows))]) in *.
  assert (Hstart : forall tail,
             (log st ++ loading ++ tail)%list
             = (((log st ++ [(INFO, StartingFrom csv)])
                 ++ (INFO, CsvColumnsFound names)
                    :: ws ++ [(INFO, ReadEntries (length rows))])
                ++ tail)%list).
  { intros tail. subst loading. rewrite <- !app_assoc. reflexivity. }
  destruct rows as [|refund rest] eqn:Hrows.
  - rewrite (bind_inr _ _ _ _ _ (logger_spec _ _ _)) in H.
    inversion H; subst s st'. clear H.
    exists (loading
            ++ [(WARNING, Literal "No valid refund data found in CSV")])%list.
    split; [rewrite Hstart; reflexivity|].
    rewrite !lines_app, Hs0, Hf0, Hp0. repeat split.
  - rewrite <- Hrows in *.
    rewrite Hrows in H at 1. cbv iota in H. rewrite <- Hrows in H.
    apply bind_inv in H as ([sc fc] & st3 & Hloop & H).
    apply refund_loop_log in Hloop as (es & Hlog & Hs & Hf & Hp).
    cbn [fst snd] in Hs, Hf.
    repeat rewrite (bind_inr _ _ _ _ _ (logger_spec _ _ _)) in H.
    apply bind_inv in H as (ratio & st4 & Hdiv & H).
    apply of_result_inv in Hdiv as [_ ->].
    rewrite (bind_inr _ _ _ _ _ (logger_spec _ _ _)) in H.
    inversion H; subst s st'. clear H.
    eexists (loading ++ es ++ _)%list.
    split.
    + cbn [log add_log] in *. rewrite Hlog, Hstart.
      rewrite <- !app_assoc. reflexivity.
    + rewrite !lines_app, Hs0, Hf0, Hp0, Hs, Hf, Hp.
      cbn [total successful failed]. unfold lines. simpl.
      repeat split; lia.
Qed.

Lemma log_agrees_with_summary_witness :
  exists entries,
    log (process_refunds two_rows "refunds.csv" initial_state).2
    = (log initial_state ++ entries)%list
    /\ lines is_success_line entries = 1
    /\ lines is_failure_line entries = 1
    /\ lines is_processing_line entries = 2.
Proof.
  destruct (process_refunds two_rows "refunds.csv" initial_state)
    as [r st'] eqn:H.
  destruct r as [e|s]; [vm_compute in H; discriminate|].
  destruct (log_agrees_with_summary _ _ _ _ _ H) as (es & Hl & Hs & Hf & Hp).
  assert (s = {| total := 2; successful := 1; failed := 1 |})
    by (vm_compute in H; now inversion H).
  subst s. exists es.
  split; [exact Hl|]. split; [exact Hs|]. split; [exact Hf|exact Hp].
Defined.

(** * More of [main] *)











